(** * European population analysis: the data pipeline of [main.py]

    A shallow embedding of the table-processing methods of [DataProcessor],
    [DataAnalyzer] and [DataVisualizer], together with the pandas operations
    they call, and the properties of the schema-inference and aggregation
    pipeline proved about them.

    Numbers are exact rationals extended with the IEEE special values
    (infinities and NaN); rounding and signed zeros are not modelled.
    Row labels (the pandas index) are not modelled: a frame is its column
    names and its rows in order. *)

From Stdlib Require Import QArith Qcanon.
From stdpp Require Import gmap numbers strings sorting.
From stdpp Require Import list.

Open Scope Qc_scope.

(** ** Values *)

(** A float64: a finite number, an infinity, or NaN. NaN is also the marker
    pandas uses for a missing value. *)
Inductive float : Type :=
  | Fin (q : Qc)
  | PInf
  | NInf
  | NaN.

(** A cell of a frame: a number (or missing) or a string. *)
Inductive cell : Type :=
  | Num (x : float)
  | Str (s : string).

#[global] Instance float_eq_dec : EqDecision float.
Proof. solve_decision. Defined.

#[global] Instance cell_eq_dec : EqDecision cell.
Proof. solve_decision. Defined.

Abbreviation row := (list cell).

(** A DataFrame: the column names and the rows, each row holding one cell
    per column, in column order. *)
Record DataFrame : Type := mkDataFrame {
  columns : list string;
  rows : list row
}.

#[global] Instance DataFrame_eq_dec : EqDecision DataFrame.
Proof. solve_decision. Defined.

Definition isna (c : cell) : bool :=
  match c with Num NaN => true | _ => false end.

Definition is_str (c : cell) : bool :=
  match c with Str _ => true | _ => false end.

(** A number that is not missing. *)
Definition is_number (c : cell) : bool :=
  match c with Num NaN => false | Num _ => true | Str _ => false end.

Definition is_finite (c : cell) : bool :=
  match c with Num (Fin _) => true | _ => false end.

Definition Qc_of_Z (z : Z) : Qc := Q2Qc (inject_Z z).

(** ** Exceptions *)

Inductive exn : Type :=
  | TypeError
  | AttributeError
  | InvalidArgument.

Inductive outcome (A : Type) : Type :=
  | Ok (a : A)
  | Raise (e : exn).
Arguments Ok {A} a.
Arguments Raise {A} e.

#[global] Instance outcome_ret : MRet outcome := fun A a => Ok a.
#[global] Instance outcome_bind : MBind outcome := fun A B f m =>
  match m with
  | Ok a => f a
  | Raise e => Raise e
  end.

(** ** Float arithmetic and comparisons (IEEE 754 without rounding) *)

Definition Qc_leb (a b : Qc) : bool := bool_decide (a <= b).
Definition Qc_ltb (a b : Qc) : bool := bool_decide (a < b).

Definition fneg (x : float) : float :=
  match x with
  | Fin a => Fin (- a)
  | PInf => NInf
  | NInf => PInf
  | NaN => NaN
  end.

Definition fadd (x y : float) : float :=
  match x, y with
  | NaN, _ | _, NaN => NaN
  | PInf, NInf | NInf, PInf => NaN
  | PInf, _ | _, PInf => PInf
  | NInf, _ | _, NInf => NInf
  | Fin a, Fin b => Fin (a + b)
  end.

Definition fsub (x y : float) : float := fadd x (fneg y).

(** The sign of a finite number picks the infinity; zero times an infinity
    is NaN. *)
Definition finf_of_sign (a : Qc) (pos : float) : float :=
  if Qc_ltb 0 a then pos
  else if Qc_ltb a 0 then fneg pos
  else NaN.

Definition fmul (x y : float) : float :=
  match x, y with
  | NaN, _ | _, NaN => NaN
  | Fin a, Fin b => Fin (a * b)
  | Fin a, PInf | PInf, Fin a => finf_of_sign a PInf
  | Fin a, NInf | NInf, Fin a => finf_of_sign a NInf
  | PInf, PInf | NInf, NInf => PInf
  | PInf, NInf | NInf, PInf => NInf
  end.

(** Division: a nonzero number over zero is an infinity, zero over zero is
    NaN; no exception is raised. *)
Definition fdiv (x y : float) : float :=
  match x, y with
  | NaN, _ | _, NaN => NaN
  | Fin a, Fin b =>
      if bool_decide (b = 0) then finf_of_sign a PInf else Fin (a / b)
  | Fin _, (PInf | NInf) => Fin 0
  | PInf, Fin b => if Qc_ltb b 0 then NInf else PInf
  | NInf, Fin b => if Qc_ltb b 0 then PInf else NInf
  | (PInf | NInf), (PInf | NInf) => NaN
  end.

(** [x <= y] as pandas evaluates it elementwise: false when either side is
    NaN. *)
Definition fle (x y : float) : bool :=
  match x, y with
  | NaN, _ | _, NaN => false
  | NInf, _ => true
  | _, NInf => false
  | _, PInf => true
  | PInf, _ => false
  | Fin a, Fin b => Qc_leb a b
  end.

(** The order used when sorting ascending: as [fle], with NaN placed last
    ([na_position='last']). *)
Definition float_leb (x y : float) : bool :=
  match x, y with
  | _, NaN => true
  | NaN, _ => false
  | _, _ => fle x y
  end.

(** The order used when sorting descending, NaN still last. *)
Definition float_geb (x y : float) : bool :=
  match x, y with
  | _, NaN => true
  | NaN, _ => false
  | _, _ => fle y x
  end.

(** Cells in ascending order: numbers before strings (the order pandas'
    [safe_sort] gives mixed keys), strings by code point, missing last. *)
Definition cell_leb (a b : cell) : bool :=
  match a, b with
  | Num x, Num y => float_leb x y
  | Str s, Str t => String.leb s t
  | Num NaN, Str _ => false
  | Num _, Str _ => true
  | Str _, Num NaN => true
  | Str _, Num _ => false
  end.

(** ** Frames: column lookup *)

(** [list(df.columns).index(col)]. *)
Fixpoint col_index (col : string) (cols : list string) : option nat :=
  match cols with
  | [] => None
  | c :: cols' =>
      if bool_decide (c = col) then Some 0%nat
      else S <$> col_index col cols'
  end.

(** The cell of row [r] at position [i]; a row shorter than the header reads
    as missing there. *)
Definition cell_at (i : nat) (r : row) : cell := nth i r (Num NaN).

(** [df[col]]: the cells of a column, one per row. *)
Definition column (df : DataFrame) (col : string) : list cell :=
  match col_index col (columns df) with
  | Some i => map (cell_at i) (rows df)
  | None => []
  end.

(** The cell of a row under a column name. *)
Definition get (cols : list string) (col : string) (r : row) : cell :=
  match col_index col cols with
  | Some i => cell_at i r
  | None => Num NaN
  end.

(** [col in df.columns]. *)
Definition has_column (df : DataFrame) (col : string) : bool :=
  bool_decide (col ∈ columns df).

(** The loop [for col in candidates: if col in df.columns: return col],
    falling through to [None]. *)
Fixpoint first_present (candidates : list string) (df : DataFrame)
  : option string :=
  match candidates with
  | [] => None
  | col :: rest =>
      if has_column df col then Some col else first_present rest df
  end.

Definition year_candidates : list string :=
  ["TIME_PERIOD"; "time"; "year"; "Year"].

Definition value_candidates : list string :=
  ["OBS_VALUE"; "value"; "population"; "Population"; "Value"].

(** The candidates of [DataProcessor._get_country_column]. *)
Definition country_candidates : list string :=
  ["geo"; "country"; "Country"; "GEO"; "Country Name"].

(** The candidates written out in [filter_european_countries]. *)
Definition filter_country_candidates : list string :=
  ["geo"; "country"; "Country"; "GEO"].

Definition _get_country_column (data : DataFrame) : option string :=
  first_present country_candidates data.

Definition _get_value_column (data : DataFrame) : option string :=
  first_present value_candidates data.

(** The year-column loop repeated in [filter_by_year],
    [calculate_growth_rate] and the plotting methods. *)
Definition find_year_column (data : DataFrame) : option string :=
  first_present year_candidates data.

(** ** pandas: cleaning *)

(** [df.drop_duplicates()]: keep the first occurrence of every row. *)
Fixpoint drop_duplicate_rows (seen : list row) (l : list row) : list row :=
  match l with
  | [] => []
  | r :: l' =>
      if bool_decide (r ∈ seen) then drop_duplicate_rows seen l'
      else r :: drop_duplicate_rows (r :: seen) l'
  end.

Definition drop_duplicates (df : DataFrame) : DataFrame :=
  mkDataFrame (columns df) (drop_duplicate_rows [] (rows df)).

(** [df.dropna()]: drop every row holding a missing value. *)
Definition has_na (r : row) : bool := existsb isna r.

Definition dropna (df : DataFrame) : DataFrame :=
  mkDataFrame (columns df) (filter (fun r => has_na r = false) (rows df)).

(** ** DataProcessor.clean_data

    The methods of [DataProcessor] are given as functions of the frame held
    in [self.data]; the frame they return is also the new [self.data]. *)
Definition clean_data (data : DataFrame) : DataFrame :=
  let data := drop_duplicates data in
  let data := dropna data in
  data.

(** ** pandas: boolean masks *)

(** [df[mask]] where the mask is computed cell by cell and may raise. *)
Fixpoint select_rows (p : row -> outcome bool) (l : list row)
  : outcome (list row) :=
  match l with
  | [] => Ok []
  | r :: l' =>
      b ← p r;
      rest ← select_rows p l';
      Ok (if b : bool then r :: rest else rest)
  end.

(** [cell >= bound] and [cell <= bound] against an integer: a string cell
    cannot be compared with a number. *)
Definition cell_ge (bound : Z) (c : cell) : outcome bool :=
  match c with
  | Num x => Ok (fle (Fin (Qc_of_Z bound)) x)
  | Str _ => Raise TypeError
  end.

Definition cell_le (bound : Z) (c : cell) : outcome bool :=
  match c with
  | Num x => Ok (fle x (Fin (Qc_of_Z bound)))
  | Str _ => Raise TypeError
  end.

(** [series.isin(values)] for a list of strings. *)
Definition isin (values : list string) (c : cell) : bool :=
  match c with
  | Str s => bool_decide (s ∈ values)
  | Num _ => false
  end.

(** Python truthiness of an optional integer argument: [None] and [0] are
    both false. *)
Definition truthy (z : option Z) : bool :=
  match z with
  | None => false
  | Some z => negb (z =? 0)%Z
  end.

(** ** DataProcessor.filter_by_year *)
Definition filter_by_year (start_year end_year : option Z) (data : DataFrame)
  : outcome DataFrame :=
  match find_year_column data with
  | None => Ok data
  | Some year_col =>
      data ← (if truthy start_year then
                rs ← select_rows
                       (fun r => cell_ge (default 0%Z start_year)
                                   (get (columns data) year_col r))
                       (rows data);
                Ok (mkDataFrame (columns data) rs)
              else Ok data);
      data ← (if truthy end_year then
                rs ← select_rows
                       (fun r => cell_le (default 0%Z end_year)
                                   (get (columns data) year_col r))
                       (rows data);
                Ok (mkDataFrame (columns data) rs)
              else Ok data);
      Ok data
  end.

(** ** DataProcessor.filter_european_countries *)
Definition european_countries : list string :=
  ["Austria"; "Belgium"; "Bulgaria"; "Croatia"; "Cyprus";
   "Czechia"; "Denmark"; "Estonia"; "Finland"; "France";
   "Germany"; "Greece"; "Hungary"; "Ireland"; "Italy";
   "Latvia"; "Lithuania"; "Luxembourg"; "Malta"; "Netherlands";
   "Poland"; "Portugal"; "Romania"; "Slovakia"; "Slovenia";
   "Spain"; "Sweden"; "United Kingdom"; "Norway"; "Switzerland"].

(** The body of the method, with the list of countries as a parameter. *)
Definition filter_countries_in (allowed : list string) (data : DataFrame)
  : DataFrame :=
  match first_present filter_country_candidates data with
  | Some country_col =>
      mkDataFrame (columns data)
        (filter
           (fun r => isin allowed (get (columns data) country_col r) = true)
           (rows data))
  | None => data
  end.

Definition filter_european_countries (data : DataFrame) : DataFrame :=
  filter_countries_in european_countries data.

(** ** pandas: sorting *)

Section sort_by.
Context {A : Type} (leb : A -> A -> bool).

(** Insert before the first element that is not smaller: an element
    inserted earlier stays in front of its equals. *)
Fixpoint insert_by (x : A) (l : list A) : list A :=
  match l with
  | [] => [x]
  | y :: l' => if leb x y then x :: l else y :: insert_by x l'
  end.

(** A stable sort. *)
Fixpoint sort_by (l : list A) : list A :=
  match l with
  | [] => []
  | x :: l' => insert_by x (sort_by l')
  end.
End sort_by.

(** Rows compared on the columns [keys], the first column first. *)
Fixpoint lex_leb (cols keys : list string) (r1 r2 : row) : bool :=
  match keys with
  | [] => true
  | c :: keys' =>
      let a := get cols c r1 in
      let b := get cols c r2 in
      if cell_leb a b
      then (if cell_leb b a then lex_leb cols keys' r1 r2 else true)
      else false
  end.

(** A column holding both strings and numbers cannot be ordered. *)
Definition mixed (cs : list cell) : bool :=
  existsb is_str cs && existsb is_number cs.

(** [df.sort_values(by)] with two or more columns: pandas sorts with a
    lexsort, which is stable; missing values go last. *)
Definition sort_values (keys : list string) (df : DataFrame)
  : outcome DataFrame :=
  if existsb (fun c => mixed (column df c)) keys then Raise TypeError
  else Ok (mkDataFrame (columns df)
             (sort_by (lex_leb (columns df) keys) (rows df))).

(** ** pandas: group by *)

(** The group keys: the distinct values of the key column that are not
    missing, in ascending order. *)
Definition group_keys (keys : list cell) : list cell :=
  sort_by cell_leb
    (remove_dups (filter (fun k => isna k = false) keys)).

(** The numbers of a list of cells, or [TypeError] on a string; missing
    values are skipped. *)
Fixpoint numbers (cs : list cell) : outcome (list float) :=
  match cs with
  | [] => Ok []
  | Str _ :: _ => Raise TypeError
  | Num NaN :: cs' => numbers cs'
  | Num x :: cs' => xs ← numbers cs'; Ok (x :: xs)
  end.

Definition fsum (xs : list float) : float := foldl fadd (Fin 0) xs.

Definition fmean (xs : list float) : float :=
  match xs with
  | [] => NaN
  | _ => fdiv (fsum xs) (Fin (Qc_of_Z (Z.of_nat (length xs))))
  end.

Definition fmin2 (x y : float) : float := if fle y x then y else x.
Definition fmax2 (x y : float) : float := if fle x y then y else x.

Definition fmin (xs : list float) : float :=
  match xs with
  | [] => NaN
  | x :: xs' => foldl fmin2 x xs'
  end.

Definition fmax (xs : list float) : float :=
  match xs with
  | [] => NaN
  | x :: xs' => foldl fmax2 x xs'
  end.

(** The cells of column [value_col] in the rows whose [key_col] is [k]. *)
Definition group_values (cols : list string) (key_col value_col : string)
    (k : cell) (l : list row) : list cell :=
  map (get cols value_col)
    (filter (fun r => get cols key_col r = k) l).

(** One row of [groupby(key)[value].agg(['mean','min','max','sum'])]. *)
Definition agg_row (cols : list string) (key_col value_col : string)
    (l : list row) (k : cell) : outcome row :=
  xs ← numbers (group_values cols key_col value_col k l);
  Ok [k; Num (fmean xs); Num (fmin xs); Num (fmax xs); Num (fsum xs)].

Fixpoint traverse {A B : Type} (f : A -> outcome B) (l : list A)
  : outcome (list B) :=
  match l with
  | [] => Ok []
  | a :: l' => b ← f a; bs ← traverse f l'; Ok (b :: bs)
  end.

(** ** DataProcessor.aggregate_by_country *)
Definition aggregate_by_country (data : DataFrame) : outcome DataFrame :=
  let country_col := _get_country_column data in
  let value_col := _get_value_column data in
  match country_col, value_col with
  | Some country_col, Some value_col =>
      agg_rows ← traverse
                   (agg_row (columns data) country_col value_col (rows data))
                   (group_keys (column data country_col));
      Ok (mkDataFrame
            ["Country"; "Average"; "Minimum"; "Maximum"; "Total"] agg_rows)
  | _, _ => Ok data
  end.

(** ** pandas: column selection *)

(** [df[[c1, c2]]]. *)
Definition select_columns (cs : list string) (df : DataFrame) : DataFrame :=
  mkDataFrame cs (map (fun r => map (fun c => get (columns df) c r) cs) (rows df)).

(** Cells in descending order, missing values still last. *)
Definition cell_geb (a b : cell) : bool :=
  match a, b with
  | _, Num NaN => true
  | Num NaN, _ => false
  | _, _ => cell_leb b a
  end.

Definition desc_leb (cols : list string) (col : string) (r1 r2 : row) : bool :=
  cell_geb (get cols col r1) (get cols col r2).

(** ** pandas: percentage change within groups *)

(** The most recent value stored for key [k]. *)
Fixpoint last_seen (k : cell) (seen : list (cell * float)) : option float :=
  match seen with
  | [] => None
  | (k', v) :: seen' =>
      if bool_decide (k' = k) then Some v else last_seen k seen'
  end.

(** [groupby(key)[value].pct_change()] over (key, value) pairs: each value
    over the previous value of its group, minus one; NaN for the first row
    of a group and for rows whose key is missing. [seen] holds the rows
    already passed, the latest first. Missing values are not filled. *)
Fixpoint pct_change (seen : list (cell * float)) (l : list (cell * float))
  : list float :=
  match l with
  | [] => []
  | (k, v) :: l' =>
      if isna k then NaN :: pct_change seen l'
      else
        match last_seen k seen with
        | Some p => fsub (fdiv v p) (Fin 1) :: pct_change ((k, v) :: seen) l'
        | None => NaN :: pct_change ((k, v) :: seen) l'
        end
  end.

Definition as_float (c : cell) : outcome float :=
  match c with
  | Num x => Ok x
  | Str _ => Raise TypeError
  end.

(** [df[col] = values]: replace the column if it exists, else append it. *)
Definition set_cell (i : nat) (c : cell) (r : row) : row :=
  take i r ++ replicate (i - length r) (Num NaN) ++ c :: drop (S i) r.

Definition set_column (col : string) (values : list cell) (df : DataFrame)
  : DataFrame :=
  match col_index col (columns df) with
  | Some i =>
      mkDataFrame (columns df)
        (zip_with (fun r c => set_cell i c r) (rows df) values)
  | None =>
      mkDataFrame (columns df ++ [col])
        (zip_with (fun r c => set_cell (length (columns df)) c r)
           (rows df) values)
  end.

(** ** DataAnalyzer.calculate_growth_rate *)
Definition calculate_growth_rate (data : DataFrame) : outcome DataFrame :=
  let country_col := _get_country_column data in
  let value_col := _get_value_column data in
  let year_col := find_year_column data in
  match country_col, value_col, year_col with
  | Some country_col, Some value_col, Some year_col =>
      sorted_data ← sort_values [country_col; year_col] data;
      values ← traverse as_float (column sorted_data value_col);
      let growth :=
        map (fun g => Num (fmul g (Fin (Qc_of_Z 100))))
          (pct_change [] (zip (column sorted_data country_col) values)) in
      Ok (set_column "growth_rate" growth sorted_data)
  | _, _, _ => Ok data
  end.

(** [groupby(key).tail(1)]: the last row of every group, in frame order;
    rows whose key is missing belong to no group. *)
Fixpoint group_tail (key : row -> cell) (l : list row) : list row :=
  match l with
  | [] => []
  | r :: l' =>
      if isna (key r) then group_tail key l'
      else if existsb (fun r' => bool_decide (key r' = key r)) l'
           then group_tail key l'
           else r :: group_tail key l'
  end.

(** ** Methods that sort on a single column

    [sort_values] on one column, of a frame or of a series, calls numpy's
    [argsort] with the default [kind='quicksort']: it orders the rows but
    does not promise to keep rows of equal key in their original order. That
    sort is a parameter of the methods below. *)
Section single_key_sort.
Variable quicksort : (row -> row -> bool) -> list row -> list row.

(** [df.sort_values(col)]. *)
Definition sort_values_by (col : string) (df : DataFrame)
  : outcome DataFrame :=
  if mixed (column df col) then Raise TypeError
  else Ok (mkDataFrame (columns df)
             (quicksort (lex_leb (columns df) [col]) (rows df))).

(** [df.nlargest(n, col)] with [keep='first']: a column of strings is
    refused; nothing is selected for [n <= 0]; for [n] at least the number
    of rows the whole column is sorted in descending order (single-column
    sort); otherwise the first [n] rows in descending order, rows of equal
    value in their original order. Missing values come last. *)
Definition nlargest (n : Z) (col : string) (df : DataFrame)
  : outcome DataFrame :=
  if existsb is_str (column df col) then Raise TypeError
  else if (n <=? 0)%Z then Ok (mkDataFrame (columns df) [])
  else if (Z.of_nat (length (rows df)) <=? n)%Z then
    Ok (mkDataFrame (columns df)
          (quicksort (desc_leb (columns df) col) (rows df)))
  else
    Ok (mkDataFrame (columns df)
          (take (Z.to_nat n)
             (sort_by (desc_leb (columns df) col) (rows df)))).

(** ** DataAnalyzer.find_top_countries

    [None] stands for Python's [None]. *)
Definition find_top_countries (n : Z) (data : DataFrame)
  : outcome (option DataFrame) :=
  let country_col := _get_country_column data in
  let value_col := _get_value_column data in
  match country_col, value_col with
  | Some country_col, Some value_col =>
      top ← nlargest n value_col data;
      Ok (Some (select_columns [country_col; value_col] top))
  | _, _ => Ok None
  end.

(** ** DataVisualizer.plot_top_countries

    The frame [top_n] the method hands to the bar chart; [None] when the
    method prints that it cannot create the plot. *)
Definition plot_top_countries (n : Z) (data : DataFrame)
  : outcome (option DataFrame) :=
  let country_col := _get_country_column data in
  let value_col := _get_value_column data in
  match country_col, value_col with
  | Some country_col, Some value_col =>
      let year_col := find_year_column data in
      latest_data ←
        match year_col with
        | Some year_col =>
            sorted ← sort_values_by year_col data;
            Ok (mkDataFrame (columns sorted)
                  (group_tail (get (columns sorted) country_col)
                     (rows sorted)))
        | None => Ok data
        end;
      top_n ← nlargest n value_col latest_data;
      Ok (Some top_n)
  | _, _ => Ok None
  end.
End single_key_sort.

(** * Objects and identity

    Python passes frames by reference. To tell a frame from its copies, the
    frames live in a store and the methods work on locations. A pandas
    operation that returns a frame allocates it; an item or attribute
    assignment on a frame updates it in place. The store is kept when an
    exception is raised. *)

Definition loc : Type := nat.

Abbreviation heap := (gmap nat DataFrame).

Definition M (A : Type) : Type := heap -> outcome A * heap.

#[global] Instance M_ret : MRet M := fun A a h => (Ok a, h).
#[global] Instance M_bind : MBind M := fun A B f m h =>
  match m h with
  | (Ok a, h') => f a h'
  | (Raise e, h') => (Raise e, h')
  end.

(** A new frame object. *)
Definition alloc (df : DataFrame) : M loc :=
  fun h => let l := fresh (dom h) in (Ok l, <[l := df]> h).

(** The frame behind a reference; a reference to nothing (Python's [None])
    has no frame to give. *)
Definition load (l : loc) : M DataFrame :=
  fun h =>
    match h !! l with
    | Some df => (Ok df, h)
    | None => (Raise AttributeError, h)
    end.

(** An update of the frame object in place. *)
Definition store (l : loc) (df : DataFrame) : M unit :=
  fun h => (Ok tt, <[l := df]> h).

(** A computation on values, which may raise. *)
Definition lift {A : Type} (o : outcome A) : M A := fun h => (o, h).

(** [DataProcessor]: the attribute [self.data]; [processed_data] is never
    assigned after the constructor. *)
Record DataProcessor : Type := mkDataProcessor {
  DataProcessor_data : loc
}.

(** [DataAnalyzer]: the attribute [self.data]. *)
Record DataAnalyzer : Type := mkDataAnalyzer {
  DataAnalyzer_data : loc
}.

(** [DataProcessor.__init__]: [self.data = data.copy()]. *)
Definition DataProcessor_init (data : loc) : M DataProcessor :=
  df ← load data;
  copy ← alloc df;
  mret (mkDataProcessor copy).

(** [DataAnalyzer.__init__]: [self.data = data], the same object. *)
Definition DataAnalyzer_init (data : loc) : M DataAnalyzer :=
  mret (mkDataAnalyzer data).

(** The methods return the object with its attributes after the call,
    together with the reference the Python method returns. *)
Definition DataProcessor_clean_data (self : DataProcessor)
  : M (DataProcessor * loc) :=
  df ← load (DataProcessor_data self);
  l1 ← alloc (drop_duplicates df);
  let self := mkDataProcessor l1 in
  df ← load (DataProcessor_data self);
  l2 ← alloc (dropna df);
  let self := mkDataProcessor l2 in
  mret (self, DataProcessor_data self).

(** [self.data = self.data[mask]]: the rows that pass the mask go to a new
    frame, which [self.data] then names. *)
Definition DataProcessor_select (mask : DataFrame -> row -> outcome bool)
    (self : DataProcessor) : M DataProcessor :=
  df ← load (DataProcessor_data self);
  rs ← lift (select_rows (mask df) (rows df));
  l ← alloc (mkDataFrame (columns df) rs);
  mret (mkDataProcessor l).

Definition DataProcessor_filter_by_year (start_year end_year : option Z)
    (self : DataProcessor) : M (DataProcessor * loc) :=
  df ← load (DataProcessor_data self);
  match find_year_column df with
  | None => mret (self, DataProcessor_data self)
  | Some year_col =>
      self ← (if truthy start_year then
                DataProcessor_select
                  (fun df r => cell_ge (default 0%Z start_year)
                                 (get (columns df) year_col r))
                  self
              else mret self);
      self ← (if truthy end_year then
                DataProcessor_select
                  (fun df r => cell_le (default 0%Z end_year)
                                 (get (columns df) year_col r))
                  self
              else mret self);
      mret (self, DataProcessor_data self)
  end.

Definition DataProcessor_filter_european_countries (self : DataProcessor)
  : M (DataProcessor * loc) :=
  df ← load (DataProcessor_data self);
  match first_present filter_country_candidates df with
  | Some country_col =>
      l ← alloc (mkDataFrame (columns df)
                   (filter
                      (fun r => isin european_countries
                                  (get (columns df) country_col r) = true)
                      (rows df)));
      let self := mkDataProcessor l in
      mret (self, DataProcessor_data self)
  | None => mret (self, DataProcessor_data self)
  end.

(** [agg_data] is a new frame; its header is then renamed in place. *)
Definition DataProcessor_aggregate_by_country (self : DataProcessor)
  : M (DataProcessor * loc) :=
  df ← load (DataProcessor_data self);
  match _get_country_column df, _get_value_column df with
  | Some country_col, Some value_col =>
      agg_rows ← lift (traverse
                         (agg_row (columns df) country_col value_col (rows df))
                         (group_keys (column df country_col)));
      agg_data ← alloc (mkDataFrame
                          [country_col; "mean"; "min"; "max"; "sum"] agg_rows);
      agg ← load agg_data;
      _ ← store agg_data
            (mkDataFrame
               ["Country"; "Average"; "Minimum"; "Maximum"; "Total"]
               (rows agg));
      mret (self, agg_data)
  | _, _ => mret (self, DataProcessor_data self)
  end.

Section single_key_sort_objects.
Variable quicksort : (row -> row -> bool) -> list row -> list row.

(** [None] is Python's [None]. The helper [DataProcessor(self.data)] works
    on a copy; the rows are taken from [self.data]. *)
Definition DataAnalyzer_find_top_countries (n : Z) (self : DataAnalyzer)
  : M (option loc) :=
  processor ← DataProcessor_init (DataAnalyzer_data self);
  pdf ← load (DataProcessor_data processor);
  match _get_country_column pdf, _get_value_column pdf with
  | Some country_col, Some value_col =>
      df ← load (DataAnalyzer_data self);
      largest ← lift (nlargest quicksort n value_col df);
      l1 ← alloc largest;
      top ← alloc (select_columns [country_col; value_col] largest);
      mret (Some top)
  | _, _ => mret None
  end.
End single_key_sort_objects.

(** [sorted_data] is a new frame; the assignment of [growth_rate] updates it
    in place. Without the three columns the method returns [self.data]
    itself. *)
Definition DataAnalyzer_calculate_growth_rate (self : DataAnalyzer)
  : M loc :=
  processor ← DataProcessor_init (DataAnalyzer_data self);
  pdf ← load (DataProcessor_data processor);
  df ← load (DataAnalyzer_data self);
  match _get_country_column pdf, _get_value_column pdf,
        find_year_column df with
  | Some country_col, Some value_col, Some year_col =>
      sorted ← lift (sort_values [country_col; year_col] df);
      sorted_data ← alloc sorted;
      values ← lift (traverse as_float (column sorted value_col));
      let growth :=
        map (fun g => Num (fmul g (Fin (Qc_of_Z 100))))
          (pct_change [] (zip (column sorted country_col) values)) in
      current ← load sorted_data;
      _ ← store sorted_data (set_column "growth_rate" growth current);
      mret sorted_data
  | _, _, _ => mret (DataAnalyzer_data self)
  end.

(** * The remaining data flow: plots and [main] *)

(** [series == value], cell by cell: a missing value equals nothing. *)
Definition cell_eqb (c k : cell) : bool :=
  if isna c || isna k then false else bool_decide (c = k).

(** One row of [groupby(key)[value].agg(['mean','min','max'])]. *)
Definition agg_row3 (cols : list string) (key_col value_col : string)
    (l : list row) (k : cell) : outcome row :=
  xs ← numbers (group_values cols key_col value_col k l);
  Ok [k; Num (fmean xs); Num (fmin xs); Num (fmax xs)].

(** One entry of [groupby(key)[value].mean()], the key beside its mean. *)
Definition mean_row (cols : list string) (key_col value_col : string)
    (l : list row) (k : cell) : outcome row :=
  xs ← numbers (group_values cols key_col value_col k l);
  Ok [k; Num (fmean xs)].

Section single_key_sort_plots.
Variable quicksort : (row -> row -> bool) -> list row -> list row.

(** ** DataVisualizer.plot_comparison

    The frame [top_10] whose columns the method draws as bars; [None] when
    it prints that it cannot create the plot. *)
Definition plot_comparison (data : DataFrame) : outcome (option DataFrame) :=
  let country_col := _get_country_column data in
  let value_col := _get_value_column data in
  match country_col, value_col with
  | Some country_col, Some value_col =>
      agg_rows ← traverse
                   (agg_row3 (columns data) country_col value_col (rows data))
                   (group_keys (column data country_col));
      let agg_data :=
        mkDataFrame [country_col; "mean"; "min"; "max"] agg_rows in
      top_10 ← nlargest quicksort 10 "mean" agg_data;
      Ok (Some top_10)
  | _, _ => Ok None
  end.

(** ** DataVisualizer.plot_trend_over_time

    The lines drawn: for every country in turn, its label and the frame
    [country_data] whose year and value columns are plotted; a country
    without rows draws nothing. [countries = None] is the default argument;
    the final [None] is the branch that prints that it cannot create the
    plot. *)
Fixpoint trend_lines (data : DataFrame) (country_col year_col : string)
    (countries : list cell) : outcome (list (cell * DataFrame)) :=
  match countries with
  | [] => Ok []
  | country :: rest =>
      let country_data :=
        mkDataFrame (columns data)
          (filter
             (fun r => cell_eqb (get (columns data) country_col r) country
                       = true)
             (rows data)) in
      country_data ← sort_values_by quicksort year_col country_data;
      lines ← trend_lines data country_col year_col rest;
      Ok (if (0 <? length (rows country_data))%nat
          then (country, country_data) :: lines
          else lines)
  end.

Definition plot_trend_over_time (countries : option (list cell))
    (data : DataFrame) : outcome (option (list (cell * DataFrame))) :=
  let country_col := _get_country_column data in
  let value_col := _get_value_column data in
  let year_col := find_year_column data in
  match country_col, value_col, year_col with
  | Some country_col, Some value_col, Some year_col =>
      countries ←
        match countries with
        | None =>
            means ← traverse
                      (mean_row (columns data) country_col value_col
                         (rows data))
                      (group_keys (column data country_col));
            top ← nlargest quicksort 5 "mean"
                    (mkDataFrame [country_col; "mean"] means);
            Ok (map (cell_at 0) (rows top))
        | Some countries => Ok countries
        end;
      lines ← trend_lines data country_col year_col countries;
      Ok (Some lines)
  | _, _, _ => Ok None
  end.
End single_key_sort_plots.

(** ** main: the processing steps

    The frame [processed_data] that [main] hands to the analyzer and the
    visualizer: cleaned, filtered from the year 2000 on, and, when there is
    a [Country Name] column, cut down to the countries listed in [main]. *)
Definition main_european_countries : list string :=
  ["Austria"; "Belgium"; "Bulgaria"; "Croatia"; "Cyprus";
   "Czech Republic"; "Denmark"; "Estonia"; "Finland"; "France";
   "Germany"; "Greece"; "Hungary"; "Ireland"; "Italy";
   "Latvia"; "Lithuania"; "Luxembourg"; "Malta"; "Netherlands";
   "Poland"; "Portugal"; "Romania"; "Slovakia"; "Slovenia";
   "Spain"; "Sweden"; "United Kingdom"; "Norway"; "Switzerland"].

Definition main_processed_data (raw_data : DataFrame) : outcome DataFrame :=
  let data := clean_data raw_data in
  data ← filter_by_year (Some 2000%Z) None data;
  let data :=
    if has_column data "Country Name" then
      mkDataFrame (columns data)
        (filter
           (fun r => isin main_european_countries
                       (get (columns data) "Country Name" r) = true)
           (rows data))
    else data in
  Ok data.

(** * Properties *)

(** Small frames used as concrete inputs. *)
Definition int (z : Z) : cell := Num (Fin (Qc_of_Z z)).

(** The frame of the example: two German rows and a French row. *)
Definition spec_example : DataFrame :=
  mkDataFrame ["country"; "year"; "value"]
    [ [Str "Germany"; int 2000; int 100];
      [Str "Germany"; int 2001; int 110];
      [Str "France"; int 2000; int 50] ].

Lemma bind_Ok {A B : Type} (f : A -> outcome B) (a : A) : Ok a ≫= f = f a.
Proof. reflexivity. Qed.

(** ** Cleaning *)

Lemma drop_duplicate_rows_spec seen l :
  NoDup (drop_duplicate_rows seen l) /\
  forall r, r ∈ drop_duplicate_rows seen l -> r ∈ l /\ r ∉ seen.
Proof.
  revert seen. induction l as [|x l IH]; intros seen; simpl.
  - split; [constructor | intros r Hr; inversion Hr].
  - case_bool_decide as Hx.
    + destruct (IH seen) as [Hnd Hin]. split; [done|].
      intros r Hr. destruct (Hin r Hr). split; [by right | done].
    + destruct (IH (x :: seen)) as [Hnd Hin]. split.
      * apply NoDup_cons. split; [|done].
        intros Hr. destruct (Hin x Hr) as [_ Hns]. apply Hns. by left.
      * intros r Hr. apply elem_of_cons in Hr as [->|Hr].
        -- split; [by left | done].
        -- destruct (Hin r Hr) as [? Hns]. split; [by right|].
           intros ?. apply Hns. by right.
Qed.

Lemma drop_duplicate_rows_id seen l :
  NoDup l -> (forall r, r ∈ l -> r ∉ seen) ->
  drop_duplicate_rows seen l = l.
Proof.
  revert seen. induction l as [|x l IH]; intros seen Hnd Hs; simpl; [done|].
  apply NoDup_cons in Hnd as [Hx Hnd].
  case_bool_decide as Hin.
  - exfalso. apply (Hs x); [by left | done].
  - f_equal. apply IH; [done|].
    intros r Hr Hr'. apply elem_of_cons in Hr' as [->|Hr']; [done|].
    apply (Hs r); [by right | done].
Qed.

Lemma filter_idemp {A : Type} (P : A -> Prop) `{!forall x, Decision (P x)}
    (l : list A) :
  filter P (filter P l) = filter P l.
Proof.
  induction l as [|x l IH]; [done|].
  rewrite (filter_cons P x l). case_decide as Hx; [|done].
  rewrite (filter_cons P x (filter P l)). rewrite decide_True by done.
  by rewrite IH.
Qed.

(** A cleaned frame has no duplicate row and no row with a missing value. *)
Lemma clean_data_rows data :
  NoDup (rows (clean_data data)) /\
  Forall (fun r => has_na r = false) (rows (clean_data data)).
Proof.
  unfold clean_data, dropna, drop_duplicates; simpl. split.
  - apply NoDup_filter. apply drop_duplicate_rows_spec.
  - apply Forall_forall. intros r Hr.
    by apply list_elem_of_filter in Hr as [? _].
Qed.

(** C7: cleaning is idempotent: cleaning a cleaned frame gives the cleaned
    frame back, where cleaning drops the repeated occurrences of a row and
    every row holding a missing value. *)
Theorem clean_data_idempotent (data : DataFrame) :
  clean_data (clean_data data) = clean_data data.
Proof.
  destruct (clean_data_rows data) as [Hnd _].
  unfold clean_data, dropna, drop_duplicates in *; simpl in *. f_equal.
  rewrite drop_duplicate_rows_id; [apply filter_idemp | done |].
  intros r _ Hr. inversion Hr.
Qed.

(** ** Column resolution *)

(** The loop returns the first candidate that names a column. *)
Lemma first_present_Some candidates df col :
  first_present candidates df = Some col <->
  exists before after,
    candidates = before ++ col :: after /\
    col ∈ columns df /\
    Forall (fun c => c ∉ columns df) before.
Proof.
  induction candidates as [|c cs IH]; simpl.
  - split; [done|]. intros (before & after & Heq & _). by destruct before.
  - unfold has_column. case_bool_decide as Hc.
    + split.
      * intros [= ->]. exists [], cs. by repeat split.
      * intros (before & after & Heq & Hin & Hb).
        destruct before as [|b before]; simpl in Heq; [congruence|].
        injection Heq as -> ->. by apply Forall_cons in Hb as [? _].
    + rewrite IH. split.
      * intros (before & after & -> & Hin & Hb).
        exists (c :: before), after. repeat split; [done|]. by constructor.
      * intros (before & after & Heq & Hin & Hb).
        destruct before as [|b before]; simpl in Heq.
        -- injection Heq as -> ->. done.
        -- injection Heq as -> ->. apply Forall_cons in Hb as [_ Hb]. eauto.
Qed.

Lemma first_present_None candidates df :
  first_present candidates df = None <->
  Forall (fun c => c ∉ columns df) candidates.
Proof.
  induction candidates as [|c cs IH]; simpl; [by split; [constructor|]|].
  unfold has_column. case_bool_decide as Hc.
  - split; [done|]. intros H. by apply Forall_cons in H as [? _].
  - rewrite IH. split; [by constructor|]. intros H. by apply Forall_cons in H as [_ ?].
Qed.

(** A frame in the shape of the population data set loaded by [main]: the
    country is under [Country Name]. *)
Definition world_bank_frame : DataFrame :=
  mkDataFrame ["Country Name"; "Year"; "Value"]
    [ [Str "Japan"; int 2000; int 126];
      [Str "France"; int 2000; int 60] ].

(** C4: the stages do not all check the same candidates for the entity key.
    On a frame whose country column is [Country Name], the helper
    [_get_country_column] resolves it, while [filter_european_countries],
    which writes out its own list without that name, resolves nothing and
    returns the frame with the non-European row still in it. *)
Theorem filter_european_countries_ignores_country_name :
  _get_country_column world_bank_frame = Some "Country Name" /\
  first_present filter_country_candidates world_bank_frame = None /\
  filter_european_countries world_bank_frame = world_bank_frame /\
  [Str "Japan"; int 2000; int 126] ∈ rows (filter_european_countries world_bank_frame).
Proof.
  assert (H : filter_european_countries world_bank_frame = world_bank_frame)
    by reflexivity.
  rewrite H. repeat split; try reflexivity. left.
Qed.

(** ** Filtering by year *)

(** A frame with a time column running through zero. *)
Definition period_frame : DataFrame :=
  mkDataFrame ["time"; "value"]
    [ [int (-1); int 10]; [int 0; int 20]; [int 1; int 30] ].

(** C8: a bound equal to 0 is not applied. With [start_year = 0] the row of
    time -1 is kept, and with [end_year = 0] the row of time 1 is kept: the
    tests [if start_year:] and [if end_year:] take 0 for an absent bound. *)
Theorem filter_by_year_zero_bound_ignored :
  filter_by_year (Some 0%Z) None period_frame = Ok period_frame /\
  filter_by_year None (Some 0%Z) period_frame = Ok period_frame /\
  filter_by_year (Some 0%Z) (Some 0%Z) period_frame = Ok period_frame.
Proof. repeat split; reflexivity. Qed.

(** The columns alone decide which candidate is found. *)
Lemma first_present_columns candidates df1 df2 :
  columns df1 = columns df2 ->
  first_present candidates df1 = first_present candidates df2.
Proof.
  intros Hc. induction candidates as [|c cs IH]; simpl; [done|].
  unfold has_column. by rewrite Hc, IH.
Qed.

(** The cells of a column are the cells [get] reads row by row. *)
Lemma column_get df col :
  col ∈ columns df ->
  column df col = map (get (columns df) col) (rows df).
Proof.
  intros Hin. unfold column, get.
  destruct (col_index col (columns df)) as [i|] eqn:Hi; [done|].
  exfalso. clear -Hin Hi. induction (columns df) as [|c cs IH]; simpl in *.
  - inversion Hin.
  - case_bool_decide as Hc; [done|].
    apply elem_of_cons in Hin as [->|Hin]; [done|].
    destruct (col_index col cs); [done|]. by apply IH.
Qed.

Lemma first_present_elem_of candidates df col :
  first_present candidates df = Some col -> col ∈ columns df.
Proof.
  intros H. apply first_present_Some in H as (? & ? & _ & ? & _). done.
Qed.

Lemma select_rows_mask (p : row -> outcome bool) (q : row -> bool) l :
  (forall r, r ∈ l -> p r = Ok (q r)) ->
  select_rows p l = Ok (filter (fun r => q r = true) l).
Proof.
  induction l as [|x l IH]; intros Hp; simpl; [done|].
  rewrite (Hp x) by (by left). rewrite bind_Ok.
  rewrite IH by (intros r Hr; apply Hp; by right). rewrite bind_Ok.
  rewrite (filter_cons (fun r => q r = true) x l).
  destruct (q x); by simplify_option_eq.
Qed.

(** The time test applied by [filter_by_year] to the year cell of a row: a
    bound is used only when it is truthy. *)
Definition ge_mask (bound : Z) (c : cell) : bool :=
  match c with
  | Num x => fle (Fin (Qc_of_Z bound)) x
  | Str _ => false
  end.

Definition le_mask (bound : Z) (c : cell) : bool :=
  match c with
  | Num x => fle x (Fin (Qc_of_Z bound))
  | Str _ => false
  end.

Definition year_kept (start_year end_year : option Z) (c : cell) : bool :=
  (if truthy start_year then ge_mask (default 0%Z start_year) c else true) &&
  (if truthy end_year then le_mask (default 0%Z end_year) c else true).

(** The year column holds no string (its dtype is numeric). *)
Definition year_column_numeric (data : DataFrame) : bool :=
  match find_year_column data with
  | Some year_col => negb (existsb is_str (column data year_col))
  | None => true
  end.

Lemma existsb_false_elem_of {A : Type} (f : A -> bool) (l : list A) :
  existsb f l = false <-> forall x, x ∈ l -> f x = false.
Proof.
  induction l as [|y l IH]; simpl.
  - split; [intros _ x Hx; inversion Hx | done].
  - rewrite orb_false_iff, IH. split.
    + intros [Hy Hl] x Hx. apply elem_of_cons in Hx as [->|Hx]; auto.
    + intros H. split; [apply H; by left | intros x Hx; apply H; by right].
Qed.

Lemma existsb_true_elem_of {A : Type} (f : A -> bool) (l : list A) :
  existsb f l = true <-> exists x, x ∈ l /\ f x = true.
Proof.
  induction l as [|y l IH]; simpl.
  - split; [done | intros (x & Hx & _); inversion Hx].
  - rewrite orb_true_iff, IH. split.
    + intros [Hy|(x & Hx & Hf)]; [exists y; split; [by left|done]|].
      exists x. split; [by right | done].
    + intros (x & Hx & Hf). apply elem_of_cons in Hx as [->|Hx]; eauto.
Qed.

(** On a frame whose year column is numeric, [filter_by_year] raises nothing
    and keeps the rows that pass [year_kept], in order. *)
Lemma filter_by_year_numeric start_year end_year data year_col :
  find_year_column data = Some year_col ->
  (forall r, r ∈ rows data -> is_str (get (columns data) year_col r) = false) ->
  filter_by_year start_year end_year data =
    Ok (mkDataFrame (columns data)
          (filter
             (fun r => year_kept start_year end_year
                         (get (columns data) year_col r) = true)
             (rows data))).
Proof.
  intros Hy Hnum. unfold filter_by_year. rewrite Hy.
  assert (Hge : forall b r, r ∈ rows data ->
            cell_ge b (get (columns data) year_col r)
            = Ok (ge_mask b (get (columns data) year_col r))).
  { intros b r Hr. specialize (Hnum r Hr).
    by destruct (get (columns data) year_col r). }
  assert (Hle : forall b r, r ∈ rows data ->
            cell_le b (get (columns data) year_col r)
            = Ok (le_mask b (get (columns data) year_col r))).
  { intros b r Hr. specialize (Hnum r Hr).
    by destruct (get (columns data) year_col r). }
  unfold year_kept.
  destruct (truthy start_year), (truthy end_year); simpl.
  - rewrite (select_rows_mask _ _ _ (Hge _)). rewrite bind_Ok. simpl.
    erewrite select_rows_mask; last first.
    { intros r Hr. apply list_elem_of_filter in Hr as [_ Hr]. by apply Hle. }
    rewrite !bind_Ok. do 2 f_equal. rewrite list_filter_filter.
    apply list_filter_iff. intros r. rewrite andb_true_iff. tauto.
  - rewrite (select_rows_mask _ _ _ (Hge _)). rewrite !bind_Ok. do 2 f_equal.
    apply list_filter_iff. intros r. rewrite andb_true_iff. tauto.
  - by rewrite (select_rows_mask _ _ _ (Hle _)), !bind_Ok.
  - destruct data as [cols rs]; simpl. do 2 f_equal.
    symmetry. clear. induction rs as [|r rs IH]; [done|].
    rewrite filter_cons. rewrite decide_True by done. by f_equal.
Qed.

Lemma year_column_numeric_rows data year_col :
  find_year_column data = Some year_col ->
  year_column_numeric data = true ->
  forall r, r ∈ rows data -> is_str (get (columns data) year_col r) = false.
Proof.
  intros Hy Hnum r Hr. unfold year_column_numeric in Hnum. rewrite Hy in Hnum.
  apply negb_true_iff in Hnum.
  rewrite column_get in Hnum by (by eapply first_present_elem_of).
  eapply existsb_false_elem_of in Hnum; [done|].
  apply list_elem_of_fmap. eauto.
Qed.



(** ** Orders *)

(** A boolean comparison that is total and transitive. *)
Definition total_preorder {A : Type} (leb : A -> A -> bool) : Prop :=
  (forall a b, leb a b = true \/ leb b a = true) /\
  (forall a b c, leb a b = true -> leb b c = true -> leb a c = true).

Lemma Qc_leb_le a b : Qc_leb a b = true <-> a <= b.
Proof. unfold Qc_leb. by rewrite bool_decide_eq_true. Qed.

Lemma string_compare_not_Gt_trans s1 s2 s3 :
  String.compare s1 s2 <> Gt -> String.compare s2 s3 <> Gt ->
  String.compare s1 s3 <> Gt.
Proof.
  revert s2 s3.
  induction s1 as [|c1 s1 IH]; intros [|c2 s2] [|c3 s3]; simpl; try done.
  unfold Ascii.compare.
  destruct (N.compare_spec (Ascii.N_of_ascii c1) (Ascii.N_of_ascii c2)),
    (N.compare_spec (Ascii.N_of_ascii c2) (Ascii.N_of_ascii c3)),
    (N.compare_spec (Ascii.N_of_ascii c1) (Ascii.N_of_ascii c3));
    try done; try lia; eauto.
Qed.

Lemma string_leb_trans s1 s2 s3 :
  String.leb s1 s2 = true -> String.leb s2 s3 = true ->
  String.leb s1 s3 = true.
Proof.
  unfold String.leb. intros H12 H23.
  pose proof (string_compare_not_Gt_trans s1 s2 s3) as H.
  destruct (String.compare s1 s2), (String.compare s2 s3),
    (String.compare s1 s3); try done; exfalso; by apply H.
Qed.

Lemma fle_trans x y z : fle x y = true -> fle y z = true -> fle x z = true.
Proof.
  destruct x, y, z; simpl; try done.
  rewrite !Qc_leb_le. apply Qcle_trans.
Qed.

Lemma float_leb_total x y : float_leb x y = true \/ float_leb y x = true.
Proof.
  destruct x as [a| | |], y as [b| | |]; simpl; auto.
  rewrite !Qc_leb_le. destruct (Qclt_le_dec a b) as [H|H]; [left|right]; [|done].
  by apply Qclt_le_weak.
Qed.

Lemma float_leb_trans x y z :
  float_leb x y = true -> float_leb y z = true -> float_leb x z = true.
Proof.
  destruct x, y, z; simpl; try done.
  rewrite !Qc_leb_le. apply Qcle_trans.
Qed.

Lemma float_leb_antisym x y :
  float_leb x y = true -> float_leb y x = true -> x = y.
Proof.
  destruct x, y; simpl; try done.
  rewrite !Qc_leb_le. intros. f_equal. by apply Qcle_antisym.
Qed.

Lemma cell_leb_total a b : cell_leb a b = true \/ cell_leb b a = true.
Proof.
  destruct a as [x|s], b as [y|t].
  - pose proof (float_leb_total x y). by destruct x, y.
  - destruct x; simpl; auto.
  - destruct y; simpl; auto.
  - apply String.leb_total.
Qed.

Lemma cell_leb_trans a b c :
  cell_leb a b = true -> cell_leb b c = true -> cell_leb a c = true.
Proof.
  destruct a as [x|s], b as [y|t], c as [z|u].
  - pose proof (float_leb_trans x y z). by destruct x, y, z.
  - by destruct x, y.
  - by destruct x, z.
  - by destruct x.
  - by destruct y, z.
  - by destruct y.
  - by destruct z.
  - apply string_leb_trans.
Qed.

Lemma cell_leb_antisym a b :
  cell_leb a b = true -> cell_leb b a = true -> a = b.
Proof.
  destruct a as [x|s], b as [y|t].
  - pose proof (float_leb_antisym x y) as H. intros H1 H2. f_equal.
    apply H; by destruct x, y.
  - by destruct x.
  - by destruct y.
  - intros. f_equal. by apply String.leb_antisym.
Qed.

Lemma cell_leb_refl a : cell_leb a a = true.
Proof. by destruct (cell_leb_total a a). Qed.

Lemma cell_geb_total a b : cell_geb a b = true \/ cell_geb b a = true.
Proof.
  unfold cell_geb. destruct (cell_leb_total a b);
    destruct a as [[]|], b as [[]|]; simpl in *; auto.
Qed.

Lemma cell_geb_trans a b c :
  cell_geb a b = true -> cell_geb b c = true -> cell_geb a c = true.
Proof.
  unfold cell_geb. intros Hab Hbc.
  destruct (isna c) eqn:Hc; [by destruct c as [[]|], a as [[]|]|].
  destruct (isna b) eqn:Hb; [by destruct b as [[]|], c as [[]|]|].
  destruct (isna a) eqn:Ha; [by destruct a as [[]|], b as [[]|]|].
  assert (cell_leb b a = true) by (by destruct a as [[]|], b as [[]|]).
  assert (cell_leb c b = true) by (by destruct b as [[]|], c as [[]|]).
  assert (cell_leb c a = true) by (by eapply cell_leb_trans).
  by destruct a as [[]|], c as [[]|].
Qed.

Lemma lex_leb_total_preorder cols keys : total_preorder (lex_leb cols keys).
Proof.
  induction keys as [|k keys [IHtot IHtr]]; split; simpl; auto.
  - intros r1 r2.
    destruct (cell_leb (get cols k r1) (get cols k r2)) eqn:H12,
      (cell_leb (get cols k r2) (get cols k r1)) eqn:H21; auto.
    destruct (cell_leb_total (get cols k r1) (get cols k r2)); congruence.
  - intros r1 r2 r3.
    destruct (cell_leb (get cols k r1) (get cols k r2)) eqn:H12; [|done].
    destruct (cell_leb (get cols k r2) (get cols k r3)) eqn:H23;
      [|by destruct (cell_leb (get cols k r2) (get cols k r1))].
    rewrite (cell_leb_trans _ _ _ H12 H23).
    destruct (cell_leb (get cols k r3) (get cols k r1)) eqn:H31; [|done].
    rewrite (cell_leb_trans _ _ _ H23 H31), (cell_leb_trans _ _ _ H31 H12).
    apply IHtr.
Qed.

Lemma desc_leb_total_preorder cols col : total_preorder (desc_leb cols col).
Proof.
  split; unfold desc_leb.
  - intros r1 r2. apply cell_geb_total.
  - intros r1 r2 r3. apply cell_geb_trans.
Qed.

(** ** The stable sort *)

Section sort_by_facts.
Context {A : Type} (leb : A -> A -> bool).

Lemma insert_by_perm x l : insert_by leb x l ≡ₚ x :: l.
Proof.
  induction l as [|y l IH]; simpl; [done|].
  destruct (leb x y); [done|]. rewrite IH. apply Permutation_swap.
Qed.

Lemma sort_by_perm l : sort_by leb l ≡ₚ l.
Proof.
  induction l as [|x l IH]; simpl; [done|].
  by rewrite insert_by_perm, IH.
Qed.

Lemma insert_by_sorted x l :
  total_preorder leb ->
  StronglySorted (fun a b => leb a b = true) l ->
  StronglySorted (fun a b => leb a b = true) (insert_by leb x l).
Proof.
  intros [Htot Htr]. induction l as [|y l IH]; intros Hs; simpl.
  - repeat constructor.
  - apply StronglySorted_cons in Hs as [Hy Hs].
    destruct (leb x y) eqn:Hxy.
    + apply StronglySorted_cons. split.
      * constructor; [done|]. eapply Forall_impl; [exact Hy|].
        intros z Hz. by eapply Htr.
      * by apply StronglySorted_cons.
    + apply StronglySorted_cons. split; [|by apply IH].
      rewrite insert_by_perm. constructor; [|done].
      destruct (Htot x y); congruence.
Qed.

Lemma sort_by_sorted l :
  total_preorder leb ->
  StronglySorted (fun a b => leb a b = true) (sort_by leb l).
Proof.
  intros Hto. induction l as [|x l IH]; simpl; [constructor|].
  by apply insert_by_sorted.
Qed.

(** Elements that compare as equal keep their relative order. *)
Lemma insert_by_stable (P : A -> Prop) `{!forall a, Decision (P a)} x l :
  (forall a b, P a -> P b -> leb a b = true) ->
  filter P (insert_by leb x l) = filter P (x :: l).
Proof.
  intros HP. induction l as [|y l IH]; simpl; [done|].
  destruct (leb x y) eqn:Hxy; [done|].
  rewrite (filter_cons P y), IH, !(filter_cons P x), (filter_cons P y).
  destruct (decide (P x)) as [Hx|Hx], (decide (P y)) as [Hy|Hy]; try done.
  rewrite HP in Hxy; done.
Qed.

Lemma sort_by_stable (P : A -> Prop) `{!forall a, Decision (P a)} l :
  (forall a b, P a -> P b -> leb a b = true) ->
  filter P (sort_by leb l) = filter P l.
Proof.
  intros HP. induction l as [|x l IH]; simpl; [done|].
  rewrite insert_by_stable by done. rewrite !(filter_cons P x).
  by rewrite IH.
Qed.
End sort_by_facts.

(** ** Percentage change within groups *)

(** The rows already passed, as [pct_change] stores them: latest first,
    without the rows whose key is missing. *)
Definition rev_seen (l : list (cell * float)) : list (cell * float) :=
  reverse (filter (fun kv => isna kv.1 = false) l).

Lemma last_seen_None k seen :
  (forall kv, kv ∈ seen -> kv.1 <> k) -> last_seen k seen = None.
Proof.
  induction seen as [|[k' v] seen IH]; intros H; simpl; [done|].
  case_bool_decide as Hk.
  - exfalso. apply (H (k', v)); [by left | done].
  - apply IH. intros kv Hkv. apply H. by right.
Qed.

Lemma pct_change_length seen l : length (pct_change seen l) = length l.
Proof.
  revert seen. induction l as [|[k v] l IH]; intros seen; simpl; [done|].
  destruct (isna k); simpl; [by rewrite IH|].
  destruct (last_seen k seen); simpl; by rewrite IH.
Qed.

Lemma pct_change_lookup l seen i k v :
  l !! i = Some (k, v) ->
  pct_change seen l !! i =
    Some (if isna k then NaN
          else match last_seen k (rev_seen (take i l) ++ seen) with
               | Some p => fsub (fdiv v p) (Fin 1)
               | None => NaN
               end).
Proof.
  revert seen i. induction l as [|[k0 v0] l IH]; intros seen i Hi; [done|].
  destruct i as [|i]; simpl in Hi.
  - injection Hi as -> ->. simpl. destruct (isna k); [done|].
    unfold rev_seen; simpl. by destruct (last_seen k seen).
  - assert (Hstep : pct_change seen ((k0, v0) :: l) !! S i =
              pct_change (if isna k0 then seen else (k0, v0) :: seen) l !! i).
    { simpl. destruct (isna k0); [done|]. by destruct (last_seen k0 seen). }
    rewrite Hstep, (IH _ _ Hi). do 3 f_equal.
    unfold rev_seen. simpl. rewrite filter_cons. simpl.
    destruct (isna k0); simpl; [done|].
    by rewrite reverse_cons, <- app_assoc.
Qed.

(** In a list sorted on the key, the previous row of the same group is the
    row just before, if it has the same key. *)
Lemma pct_change_sorted (l : list (cell * float)) i k v :
  StronglySorted (fun a b => cell_leb a.1 b.1 = true) l ->
  l !! i = Some (k, v) ->
  pct_change [] l !! i =
    Some (match i with
          | O => NaN
          | S j =>
              match l !! j with
              | Some (k', p) =>
                  if bool_decide (k' = k) && negb (isna k)
                  then fsub (fdiv v p) (Fin 1)
                  else NaN
              | None => NaN
              end
          end).
Proof.
  intros Hs Hi. rewrite (pct_change_lookup _ _ _ _ _ Hi). f_equal.
  rewrite app_nil_r.
  destruct i as [|j]; [by destruct (isna k)|].
  destruct (l !! j) as [[k' p]|] eqn:Hj; last first.
  { apply lookup_ge_None in Hj. apply lookup_lt_Some in Hi. lia. }
  destruct (isna k) eqn:Hna; [by rewrite andb_false_r|]. rewrite andb_true_r.
  rewrite (take_S_r _ _ _ Hj). unfold rev_seen.
  rewrite filter_app, reverse_app, filter_cons, filter_nil. simpl.
  assert (Hkk : cell_leb k' k = true).
  { rewrite <- (take_drop (S j) l) in Hs.
    rewrite (take_S_r _ _ _ Hj) in Hs.
    eapply (StronglySorted_app_1_elem_of _ _ _ (k', p) (k, v)) in Hs; [done| |].
    - apply elem_of_app. right. by left.
    - apply list_elem_of_lookup. exists 0%nat. by rewrite lookup_drop, Nat.add_0_r. }
  assert (Hearlier : k' <> k ->
            last_seen k (reverse (filter (fun kv => isna kv.1 = false) (take j l)))
            = None).
  { intros Hne. apply last_seen_None. intros [k0 v0] Hin Heq. simpl in Heq.
    subst k0. apply elem_of_reverse, list_elem_of_filter in Hin as [_ Hin].
    rewrite <- (take_drop j l) in Hs.
    eapply (StronglySorted_app_1_elem_of _ _ _ (k, v0) (k', p)) in Hs;
      [| done |].
    - simpl in Hs. apply Hne. by apply cell_leb_antisym.
    - apply list_elem_of_lookup. exists 0%nat. by rewrite lookup_drop, Nat.add_0_r. }
  case_bool_decide as Hk.
  - subst k'. rewrite Hna. simpl. by rewrite bool_decide_true.
  - destruct (isna k') eqn:Hna'; simpl.
    + by rewrite Hearlier.
    + rewrite bool_decide_false by done. by rewrite Hearlier.
Qed.

(** ** Reading and writing columns *)

Lemma col_index_Some col cols i :
  col_index col cols = Some i -> cols !! i = Some col.
Proof.
  revert i. induction cols as [|c cols IH]; intros i; simpl; [done|].
  case_bool_decide as Hc.
  - intros [= <-]. by subst.
  - destruct (col_index col cols) as [j|]; simpl; [|done].
    intros [= <-]. by apply IH.
Qed.

Lemma col_index_None col cols : col_index col cols = None <-> col ∉ cols.
Proof.
  induction cols as [|c cols IH]; simpl.
  - split; [intros _ H; inversion H | done].
  - rewrite not_elem_of_cons. case_bool_decide as Hc.
    + split; [done | intros [? _]; by subst].
    + destruct (col_index col cols); simpl.
      * split; [done|]. intros [_ H]. by apply IH in H.
      * split; [|done]. intros _. split; [done | by apply IH].
Qed.

Lemma col_index_elem_of col cols :
  col ∈ cols -> exists i, col_index col cols = Some i.
Proof.
  intros Hin. destruct (col_index col cols) as [i|] eqn:Hi; [eauto|].
  by apply col_index_None in Hi.
Qed.

Lemma col_index_app_l col cols extra i :
  col_index col cols = Some i -> col_index col (cols ++ extra) = Some i.
Proof.
  revert i. induction cols as [|c cols IH]; intros i; simpl; [done|].
  case_bool_decide; [done|].
  destruct (col_index col cols) as [j|]; simpl; [|done].
  intros [= <-]. by rewrite (IH j).
Qed.

Lemma col_index_app_new col cols :
  col ∉ cols -> col_index col (cols ++ [col]) = Some (length cols).
Proof.
  induction cols as [|c cols IH]; simpl.
  - intros _. by rewrite bool_decide_true.
  - rewrite not_elem_of_cons. intros [Hne Hni].
    rewrite bool_decide_false by done. by rewrite IH.
Qed.

Lemma cell_at_lookup i r : cell_at i r = default (Num NaN) (r !! i).
Proof. apply nth_lookup. Qed.

Lemma cell_at_set_cell_eq i c r : cell_at i (set_cell i c r) = c.
Proof.
  rewrite cell_at_lookup. unfold set_cell.
  destruct (decide (i < length r)%nat) as [Hlt|Hge].
  - rewrite lookup_app_r by (rewrite length_take; lia).
    rewrite length_take, Nat.min_l by lia.
    replace (i - length r)%nat with 0%nat by lia. simpl.
    by rewrite Nat.sub_diag.
  - rewrite take_ge by lia.
    rewrite lookup_app_r by lia.
    rewrite lookup_app_r by (rewrite length_replicate; lia).
    by rewrite length_replicate, Nat.sub_diag.
Qed.

Lemma cell_at_set_cell_ne i j c r :
  i <> j -> cell_at j (set_cell i c r) = cell_at j r.
Proof.
  intros Hij. rewrite !cell_at_lookup. unfold set_cell.
  destruct (decide (j < i)%nat) as [Hlt|Hge].
  - destruct (decide (j < length r)%nat) as [Hjr|Hjr].
    + rewrite lookup_app_l by (rewrite length_take; lia).
      by rewrite lookup_take_lt.
    + rewrite (lookup_ge_None_2 r j) by lia.
      rewrite take_ge by lia. rewrite lookup_app_r by lia.
      rewrite lookup_app_l by (rewrite length_replicate; lia).
      by rewrite lookup_replicate_2 by lia.
  - destruct (decide (i < length r)%nat) as [Hir|Hir].
    + rewrite lookup_app_r by (rewrite length_take; lia).
      rewrite length_take, Nat.min_l by lia.
      replace (i - length r)%nat with 0%nat by lia. simpl.
      destruct (j - i)%nat as [|d] eqn:Hd; [lia|]. simpl.
      rewrite lookup_drop. do 2 f_equal. lia.
    + rewrite take_ge by lia. rewrite lookup_app_r by lia.
      rewrite lookup_app_r by (rewrite length_replicate; lia).
      rewrite length_replicate.
      destruct (j - length r - (i - length r))%nat as [|d] eqn:Hd; [lia|].
      simpl. rewrite lookup_drop.
      by rewrite !lookup_ge_None_2 by lia.
Qed.

(** After [df[col] = values], a row reads the new value under [col] and its
    former cells under the other columns. *)
Lemma set_column_lookup col values df i r' :
  rows (set_column col values df) !! i = Some r' ->
  exists r v,
    rows df !! i = Some r /\ values !! i = Some v /\
    get (columns (set_column col values df)) col r' = v /\
    forall c, c ∈ columns df -> c <> col ->
      get (columns (set_column col values df)) c r' = get (columns df) c r.
Proof.
  unfold set_column.
  destruct (col_index col (columns df)) as [i0|] eqn:Hc; simpl.
  - intros Hl. apply lookup_zip_with_Some in Hl as (r & v & -> & Hr & Hv).
    exists r, v. repeat split; [done..| |].
    + unfold get. rewrite Hc. apply cell_at_set_cell_eq.
    + intros c Hin Hne. unfold get.
      destruct (col_index_elem_of _ _ Hin) as [j Hj]. rewrite Hj.
      apply cell_at_set_cell_ne. intros ->.
      apply col_index_Some in Hc, Hj. congruence.
  - intros Hl. apply lookup_zip_with_Some in Hl as (r & v & -> & Hr & Hv).
    apply col_index_None in Hc.
    exists r, v. repeat split; [done..| |].
    + unfold get. rewrite (col_index_app_new _ _ Hc).
      apply cell_at_set_cell_eq.
    + intros c Hin Hne. unfold get.
      destruct (col_index_elem_of _ _ Hin) as [j Hj].
      rewrite (col_index_app_l _ _ _ _ Hj), Hj.
      apply cell_at_set_cell_ne. intros <-.
      apply col_index_Some, lookup_lt_Some in Hj. lia.
Qed.

Lemma set_column_length col values df :
  length values = length (rows df) ->
  length (rows (set_column col values df)) = length (rows df).
Proof.
  intros Hl. unfold set_column.
  destruct (col_index col (columns df)); simpl;
    rewrite length_zip_with; lia.
Qed.

(** A column without strings converts to floats without error. *)
Definition float_of (c : cell) : float :=
  match c with
  | Num x => x
  | Str _ => NaN
  end.

Lemma traverse_as_float cs :
  existsb is_str cs = false ->
  traverse as_float cs = Ok (map float_of cs).
Proof.
  induction cs as [|c cs IH]; simpl; [done|].
  intros H. apply orb_false_iff in H as [Hc Hcs].
  destruct c as [x|s]; [|done]. simpl. by rewrite (IH Hcs).
Qed.

(** ** Growth rates *)

#[global] Instance exn_eq_dec : EqDecision exn.
Proof. solve_decision. Defined.

#[global] Instance outcome_eq_dec {A : Type} `{EqDecision A} :
  EqDecision (outcome A).
Proof. solve_decision. Defined.

(** Decide an equation between closed terms by evaluation. *)
Ltac by_evaluation :=
  match goal with
  | |- ?a = ?b => apply (bool_decide_unpack (a = b)); vm_compute; exact I
  end.

(** The rows as [calculate_growth_rate] sorts them. *)
Definition sorted_rows (data : DataFrame) (country_col year_col : string)
  : list row :=
  sort_by (lex_leb (columns data) [country_col; year_col]) (rows data).

(** The values assigned to [growth_rate], row by row of the sorted frame. *)
Definition growth_values (cols : list string) (country_col value_col : string)
    (sorted : list row) : list float :=
  map (fun g => fmul g (Fin (Qc_of_Z 100)))
    (pct_change []
       (map (fun r => (get cols country_col r,
                       float_of (get cols value_col r))) sorted)).

(** The three columns can be sorted and divided: no strings mixed with
    numbers in the keys, no string among the values. *)
Definition growth_columns_typed (data : DataFrame)
    (country_col value_col year_col : string) : bool :=
  negb (mixed (column data country_col)) &&
  negb (mixed (column data year_col)) &&
  negb (existsb is_str (column data value_col)).

Lemma zip_map_pair {A B C : Type} (f : A -> B) (g : A -> C) (l : list A) :
  zip (map f l) (map g l) = map (fun a => (f a, g a)) l.
Proof. induction l as [|a l IH]; simpl; [done|]. by rewrite IH. Qed.

Lemma calculate_growth_rate_resolved data cc vc yc :
  _get_country_column data = Some cc ->
  _get_value_column data = Some vc ->
  find_year_column data = Some yc ->
  growth_columns_typed data cc vc yc = true ->
  calculate_growth_rate data =
    Ok (set_column "growth_rate"
          (map Num (growth_values (columns data) cc vc (sorted_rows data cc yc)))
          (mkDataFrame (columns data) (sorted_rows data cc yc))).
Proof.
  intros Hcc Hvc Hyc Hty. unfold calculate_growth_rate.
  rewrite Hcc, Hvc, Hyc.
  unfold growth_columns_typed in Hty.
  apply andb_true_iff in Hty as [Hty Hv].
  apply andb_true_iff in Hty as [Hc Hy].
  apply negb_true_iff in Hc, Hy, Hv.
  unfold sort_values. cbn [existsb]. rewrite Hc, Hy. cbn [orb].
  rewrite bind_Ok. fold (sorted_rows data cc yc).
  pose proof (first_present_elem_of _ _ _ Hcc) as Hcin.
  pose proof (first_present_elem_of _ _ _ Hvc) as Hvin.
  rewrite !(column_get (mkDataFrame _ _)) by done. simpl.
  rewrite traverse_as_float; last first.
  { apply existsb_false_elem_of. intros c Hcell.
    apply list_elem_of_fmap in Hcell as (r & -> & Hr).
    rewrite column_get in Hv by done.
    eapply existsb_false_elem_of in Hv; [done|].
    apply list_elem_of_fmap. exists r. split; [done|].
    unfold sorted_rows in Hr. by rewrite sort_by_perm in Hr. }
  rewrite bind_Ok. do 2 f_equal.
  unfold growth_values. rewrite map_map.
  by rewrite <- zip_map_pair, map_map.
Qed.

Lemma growth_values_length cols cc vc sorted :
  length (growth_values cols cc vc sorted) = length sorted.
Proof.
  unfold growth_values.
  by rewrite length_map, pct_change_length, length_map.
Qed.

Definition percent_change (v p : float) : float :=
  fmul (fsub (fdiv v p) (Fin 1)) (Fin (Qc_of_Z 100)).

Lemma lex_leb_first cols k keys r1 r2 :
  lex_leb cols (k :: keys) r1 r2 = true ->
  cell_leb (get cols k r1) (get cols k r2) = true.
Proof. simpl. by destruct (cell_leb (get cols k r1) (get cols k r2)). Qed.

(** The growth value of a sorted row: NaN for the first row and after a row
    of another country, else the change from the row just before. *)
Lemma growth_values_lookup cols cc yc vc sorted i r :
  StronglySorted (fun r1 r2 => lex_leb cols [cc; yc] r1 r2 = true) sorted ->
  sorted !! i = Some r ->
  growth_values cols cc vc sorted !! i =
    Some (match i with
          | O => NaN
          | S j =>
              match sorted !! j with
              | Some p =>
                  if bool_decide (get cols cc p = get cols cc r)
                     && negb (isna (get cols cc r))
                  then percent_change (float_of (get cols vc r))
                         (float_of (get cols vc p))
                  else NaN
              | None => NaN
              end
          end).
Proof.
  intros Hs Hi. unfold growth_values. rewrite list_lookup_fmap.
  erewrite pct_change_sorted; last first.
  - rewrite list_lookup_fmap, Hi. reflexivity.
  - clear -Hs. induction Hs as [|x l Hl IH Hx]; simpl; constructor; [done|].
    apply Forall_fmap. eapply Forall_impl; [exact Hx|].
    intros y Hy. exact (lex_leb_first _ _ _ _ _ Hy).
  - simpl. f_equal. destruct i as [|j]; [done|].
    rewrite list_lookup_fmap. destruct (sorted !! j) as [p|]; simpl; [|done].
    by destruct (bool_decide _ && _).
Qed.

Lemma percent_change_finite (u v : Qc) :
  u <> 0 ->
  percent_change (Fin v) (Fin u) = Fin ((v - u) / u * Qc_of_Z 100).
Proof.
  intros Hu. unfold percent_change. simpl.
  rewrite bool_decide_false by done. simpl. f_equal. field. done.
Qed.

(** One country with the values 100, 150, 75 over three years, given out of
    order, and a second country. *)
Definition growth_example : DataFrame :=
  mkDataFrame ["country"; "year"; "population"]
    [ [Str "Italy"; int 2002; int 75];
      [Str "Italy"; int 2000; int 100];
      [Str "Spain"; int 2000; int 40];
      [Str "Italy"; int 2001; int 150] ].

Definition growth_example_result : DataFrame :=
  mkDataFrame ["country"; "year"; "population"; "growth_rate"]
    [ [Str "Italy"; int 2000; int 100; Num NaN];
      [Str "Italy"; int 2001; int 150; int 50];
      [Str "Italy"; int 2002; int 75; int (-50)];
      [Str "Spain"; int 2000; int 40; Num NaN] ].



(** A growth rate that is not a number: an infinity or NaN. *)
Definition undefined_growth (c : cell) : bool :=
  match c with
  | Num (Fin _) => false
  | Num _ => true
  | Str _ => false
  end.

Lemma percent_change_zero_finite (v : Qc) :
  percent_change (Fin v) (Fin 0) = finf_of_sign v PInf.
Proof.
  unfold percent_change. simpl. unfold finf_of_sign.
  destruct (Qc_ltb 0 v); [done|]. by destruct (Qc_ltb v 0).
Qed.

Lemma percent_change_zero_undefined (x : float) :
  undefined_growth (Num (percent_change x (Fin 0))) = true.
Proof.
  destruct x as [v| | |]; try done.
  rewrite percent_change_zero_finite. unfold finf_of_sign.
  destruct (Qc_ltb 0 v); [done|]. by destruct (Qc_ltb v 0).
Qed.

(** A country whose population starts at zero. *)
Definition zero_example : DataFrame :=
  mkDataFrame ["country"; "year"; "population"]
    [ [Str "Malta"; int 2000; int 0];
      [Str "Malta"; int 2001; int 5] ].



(** ** Aggregation by country *)

(** The finite numbers among a list of cells. *)
Definition finite_values (cs : list cell) : list Qc :=
  omap (fun c => match c with Num (Fin q) => Some q | _ => None end) cs.

Definition Qc_sum (qs : list Qc) : Qc := foldr Qcplus 0 qs.

Lemma finite_values_cells cs :
  forallb is_finite cs = true ->
  cs = map (fun q => Num (Fin q)) (finite_values cs).
Proof.
  induction cs as [|c cs IH]; simpl; [done|].
  intros H. apply andb_true_iff in H as [Hc Hcs].
  destruct c as [[q| | |]|]; try done. simpl. f_equal. by apply IH.
Qed.

Lemma numbers_finite (qs : list Qc) :
  numbers (map (fun q => Num (Fin q)) qs) = Ok (map Fin qs).
Proof. induction qs as [|q qs IH]; simpl; [done|]. by rewrite IH. Qed.

Lemma fsum_finite (a : Qc) (qs : list Qc) :
  foldl fadd (Fin a) (map Fin qs) = Fin (a + Qc_sum qs).
Proof.
  revert a. induction qs as [|q qs IH]; intros a; simpl.
  - f_equal. ring.
  - rewrite IH. f_equal. ring.
Qed.

Lemma fmin_finite (a : Qc) (qs : list Qc) :
  exists m, foldl fmin2 (Fin a) (map Fin qs) = Fin m /\
            m ∈ a :: qs /\ Forall (fun q => m <= q) (a :: qs).
Proof.
  revert a. induction qs as [|q qs IH]; intros a; simpl.
  - exists a. repeat split; [by left|]. constructor; [apply Qcle_refl|constructor].
  - unfold fmin2 at 2. simpl. unfold Qc_leb. case_bool_decide as Hqa.
    + destruct (IH q) as (m & -> & Hin & Hall). exists m.
      apply Forall_cons in Hall as [Hmq Hall].
      split; [done|]. split; [by right|].
      repeat constructor; [by eapply Qcle_trans|done|done].
    + destruct (IH a) as (m & -> & Hin & Hall). exists m.
      apply Forall_cons in Hall as [Hma Hall].
      split; [done|]. split.
      * apply elem_of_cons in Hin as [->|Hin]; [by left | by do 2 right].
      * repeat constructor; [done| |done].
        apply Qcle_trans with a; [done|].
        apply Qclt_le_weak. by apply Qcnot_le_lt.
Qed.

Lemma fmax_finite (a : Qc) (qs : list Qc) :
  exists m, foldl fmax2 (Fin a) (map Fin qs) = Fin m /\
            m ∈ a :: qs /\ Forall (fun q => q <= m) (a :: qs).
Proof.
  revert a. induction qs as [|q qs IH]; intros a; simpl.
  - exists a. repeat split; [by left|]. constructor; [apply Qcle_refl|constructor].
  - unfold fmax2 at 2. simpl. unfold Qc_leb. case_bool_decide as Haq.
    + destruct (IH q) as (m & -> & Hin & Hall). exists m.
      apply Forall_cons in Hall as [Hmq Hall].
      split; [done|]. split; [by right|].
      repeat constructor; [by eapply Qcle_trans|done|done].
    + destruct (IH a) as (m & -> & Hin & Hall). exists m.
      apply Forall_cons in Hall as [Hma Hall].
      split; [done|]. split.
      * apply elem_of_cons in Hin as [->|Hin]; [by left | by do 2 right].
      * repeat constructor; [done| |done].
        apply Qcle_trans with a; [|done].
        apply Qclt_le_weak. by apply Qcnot_le_lt.
Qed.

Lemma Qc_of_Z_nonzero (z : Z) : z <> 0%Z -> Qc_of_Z z <> 0.
Proof.
  intros Hz H. unfold Qc_of_Z in H. apply Q2Qc_eq_iff in H.
  unfold Qeq in H. simpl in H. lia.
Qed.

Lemma traverse_Ok {A B : Type} (f : A -> outcome B) (g : A -> B) (l : list A) :
  (forall a, a ∈ l -> f a = Ok (g a)) -> traverse f l = Ok (map g l).
Proof.
  induction l as [|a l IH]; intros Hf; simpl; [done|].
  rewrite (Hf a) by (by left). rewrite bind_Ok.
  rewrite IH by (intros b Hb; apply Hf; by right). done.
Qed.

Lemma fsum_map_Fin (qs : list Qc) : fsum (map Fin qs) = Fin (Qc_sum qs).
Proof. unfold fsum. rewrite fsum_finite. f_equal. ring. Qed.

Lemma group_values_finite cols cc vc k (l : list row) :
  forallb is_finite (map (get cols vc) l) = true ->
  forallb is_finite (group_values cols cc vc k l) = true.
Proof.
  unfold group_values. induction l as [|r l IH]; simpl; [done|].
  intros H. apply andb_true_iff in H as [Hr Hl].
  rewrite filter_cons. case_decide; simpl; [|by apply IH].
  by rewrite Hr, IH.
Qed.

(** The aggregate row of a group whose values are the finite numbers [qs]. *)
Lemma agg_row_finite cols cc vc l k (qs : list Qc) :
  group_values cols cc vc k l = map (fun q => Num (Fin q)) qs ->
  agg_row cols cc vc l k =
    Ok [k; Num (fmean (map Fin qs)); Num (fmin (map Fin qs));
        Num (fmax (map Fin qs)); Num (Fin (Qc_sum qs))].
Proof.
  intros Hg. unfold agg_row. rewrite Hg, numbers_finite, bind_Ok.
  by rewrite fsum_map_Fin.
Qed.

Lemma fmean_finite (qs : list Qc) :
  qs <> [] ->
  exists mean, fmean (map Fin qs) = Fin mean /\
               Qc_of_Z (Z.of_nat (length qs)) * mean = Qc_sum qs.
Proof.
  intros Hne. destruct qs as [|q qs]; [done|].
  change (fmean (map Fin (q :: qs)))
    with (fdiv (fsum (map Fin (q :: qs)))
            (Fin (Qc_of_Z (Z.of_nat (length (map Fin (q :: qs))))))).
  rewrite fsum_map_Fin, length_map.
  pose proof (Qc_of_Z_nonzero (Z.of_nat (length (q :: qs)))) as Hn.
  unfold fdiv. rewrite bool_decide_false by (apply Hn; simpl; lia).
  eexists. split; [reflexivity|]. field. apply Hn. simpl. lia.
Qed.

Definition spec_example_aggregate : DataFrame :=
  mkDataFrame ["Country"; "Average"; "Minimum"; "Maximum"; "Total"]
    [ [Str "France"; int 50; int 50; int 50; int 50];
      [Str "Germany"; int 105; int 100; int 110; int 210] ].



(** ** Ranking *)

(** What a single-column sort promises: the rows of its input, in
    order. *)
Record sorts (quicksort : (row -> row -> bool) -> list row -> list row)
  : Prop := {
  sorts_perm : forall leb l, quicksort leb l ≡ₚ l;
  sorts_sorted : forall leb l,
    total_preorder leb ->
    StronglySorted (fun a b => leb a b = true) (quicksort leb l)
}.

(** A sort is stable when rows that compare as equal keep their order. *)
Definition stable
    (quicksort : (row -> row -> bool) -> list row -> list row) : Prop :=
  forall leb (P : row -> Prop) (dec : forall a, Decision (P a)) l,
    (forall a b, P a -> P b -> leb a b = true) ->
    filter P (quicksort leb l) = filter P l.

Lemma sort_by_sorts : sorts sort_by.
Proof.
  split.
  - intros leb l. apply sort_by_perm.
  - intros leb l. apply sort_by_sorted.
Qed.

Lemma sort_by_is_stable : stable sort_by.
Proof. intros leb P dec l HP. by apply sort_by_stable. Qed.

(** [nlargest] returns the first [n] rows of a ranking of all the rows by
    descending value. *)
Lemma nlargest_ranked quicksort n col df :
  sorts quicksort ->
  existsb is_str (column df col) = false ->
  exists ranked,
    ranked ≡ₚ rows df /\
    StronglySorted (fun a b => desc_leb (columns df) col a b = true) ranked /\
    nlargest quicksort n col df
      = Ok (mkDataFrame (columns df) (take (Z.to_nat n) ranked)).
Proof.
  intros [Hperm Hsorted] Hstr. unfold nlargest. rewrite Hstr.
  destruct (n <=? 0)%Z eqn:Hn0.
  - exists (sort_by (desc_leb (columns df) col) (rows df)).
    split; [apply sort_by_perm|].
    split; [apply sort_by_sorted, desc_leb_total_preorder|].
    apply Z.leb_le in Hn0. by replace (Z.to_nat n) with 0%nat by lia.
  - destruct (Z.of_nat (length (rows df)) <=? n)%Z eqn:Hlen.
    + exists (quicksort (desc_leb (columns df) col) (rows df)).
      split; [apply Hperm|].
      split; [apply Hsorted, desc_leb_total_preorder|].
      apply Z.leb_le in Hlen. rewrite take_ge; [done|].
      rewrite Hperm. lia.
    + exists (sort_by (desc_leb (columns df) col) (rows df)).
      split; [apply sort_by_perm|].
      split; [apply sort_by_sorted, desc_leb_total_preorder|done].
Qed.




(** ** The latest row of every country *)

Section group_tail_facts.
Context (key : row -> cell).

Lemma group_tail_subseteq x l r :
  r ∈ group_tail key l -> r ∈ group_tail key (x :: l).
Proof.
  intros Hr. simpl. destruct (isna (key x)); [done|].
  destruct (existsb _ l); [done | by right].
Qed.

(** The rows kept are the rows with a key that no later row has. *)
Lemma group_tail_elem_of l r :
  r ∈ group_tail key l <->
  exists l1 l2,
    l = l1 ++ r :: l2 /\ isna (key r) = false /\
    Forall (fun r2 => key r2 <> key r) l2.
Proof.
  split.
  - induction l as [|x l IH]; simpl; [by intros H; inversion H|].
    assert (Hrest : r ∈ group_tail key l ->
              exists l1 l2, x :: l = l1 ++ r :: l2 /\ isna (key r) = false /\
                            Forall (fun r2 => key r2 <> key r) l2).
    { intros Hr. destruct (IH Hr) as (l1 & l2 & -> & Hna & Hl2).
      by exists (x :: l1), l2. }
    destruct (isna (key x)) eqn:Hna; [done|].
    destruct (existsb _ l) eqn:Hex; [done|].
    intros Hr. apply elem_of_cons in Hr as [->|Hr]; [|by apply Hrest].
    exists [], l. repeat split; [done|].
    apply Forall_forall. intros r2 Hr2.
    eapply existsb_false_elem_of in Hex; [|exact Hr2].
    by apply bool_decide_eq_false in Hex.
  - intros (l1 & l2 & -> & Hna & Hl2).
    induction l1 as [|x l1 IH]; [|by apply group_tail_subseteq].
    simpl. rewrite Hna.
    assert (Hex : existsb (fun r' => bool_decide (key r' = key r)) l2 = false).
    { apply existsb_false_elem_of. intros r2 Hr2.
      apply bool_decide_eq_false. by eapply Forall_forall in Hl2. }
    rewrite Hex. by left.
Qed.

Lemma group_tail_elem_of_list l r : r ∈ group_tail key l -> r ∈ l.
Proof.
  intros Hr. apply group_tail_elem_of in Hr as (l1 & l2 & -> & _).
  apply elem_of_app. right. by left.
Qed.

(** No two rows kept have the same key. *)
Lemma group_tail_NoDup l : NoDup (map key (group_tail key l)).
Proof.
  induction l as [|x l IH]; simpl; [constructor|].
  destruct (isna (key x)); [done|].
  destruct (existsb _ l) eqn:Hex; [done|].
  simpl. apply NoDup_cons. split; [|done].
  intros Hin. apply list_elem_of_fmap in Hin as (r & Hk & Hr).
  apply group_tail_elem_of_list in Hr.
  eapply existsb_false_elem_of in Hex; [|exact Hr].
  by apply bool_decide_eq_false in Hex.
Qed.

(** Every key that is not missing has its row. *)
Lemma group_tail_covers l r :
  r ∈ l -> isna (key r) = false ->
  key r ∈ map key (group_tail key l).
Proof.
  revert r. induction l as [|x l IH]; intros r Hr Hna; [inversion Hr|].
  assert (Hrest : forall k, k ∈ map key (group_tail key l) ->
            k ∈ map key (group_tail key (x :: l))).
  { intros k H. apply list_elem_of_fmap in H as (r' & Hk' & Hr').
    apply list_elem_of_fmap. exists r'. split; [done|].
    by apply group_tail_subseteq. }
  apply elem_of_cons in Hr as [->|Hr]; [|by apply Hrest, IH].
  simpl. rewrite Hna.
  destruct (existsb _ l) eqn:Hex; [|by left].
  apply existsb_true_elem_of in Hex as (r2 & Hr2 & Heq).
  apply bool_decide_eq_true in Heq.
  rewrite <- Heq. apply IH; [done|]. by rewrite Heq.
Qed.

Lemma group_tail_keys l k :
  k ∈ map key (group_tail key l) <-> k ∈ map key l /\ isna k = false.
Proof.
  split.
  - intros Hk. apply list_elem_of_fmap in Hk as (r & -> & Hr).
    pose proof (group_tail_elem_of_list _ _ Hr) as Hin.
    apply group_tail_elem_of in Hr as (_ & _ & _ & Hna & _).
    split; [|done]. apply list_elem_of_fmap. eauto.
  - intros [Hk Hna]. apply list_elem_of_fmap in Hk as (r & -> & Hr).
    by apply group_tail_covers.
Qed.
End group_tail_facts.

Lemma filter_none {A : Type} (P : A -> Prop) `{!forall a, Decision (P a)}
    (l : list A) :
  Forall (fun a => ~ P a) l -> filter P l = [].
Proof.
  induction 1 as [|a l Ha Hl IH]; [done|].
  by rewrite filter_cons, decide_False.
Qed.

Lemma lex_leb_single_eq cols col r1 r2 :
  get cols col r1 = get cols col r2 -> lex_leb cols [col] r1 r2 = true.
Proof. intros H. simpl. by rewrite H, cell_leb_refl. Qed.

(** Two rows for each of two countries, the later years tied for Peru, and
    the rows not in year order. *)
Definition latest_example : DataFrame :=
  mkDataFrame ["country"; "year"; "population"]
    [ [Str "Peru"; int 2001; int 7];
      [Str "Chile"; int 2001; int 30];
      [Str "Peru"; int 2001; int 9];
      [Str "Chile"; int 2000; int 40];
      [Str "Peru"; int 2000; int 50] ].



(** ** Objects: which frames a stage touches *)

(** [Q] holds of the result and the store after running [m] from [h]. *)
Definition wp {A : Type} (m : M A) (h : heap)
    (Q : outcome A -> heap -> Prop) : Prop :=
  Q (m h).1 (m h).2.

Lemma wp_ret {A : Type} (a : A) h (Q : outcome A -> heap -> Prop) :
  Q (Ok a) h -> wp (mret a) h Q.
Proof. done. Qed.

Lemma wp_bind {A B : Type} (m : M A) (f : A -> M B) h
    (Q : outcome B -> heap -> Prop) :
  wp m h (fun o h' =>
            match o with
            | Ok a => wp (f a) h' Q
            | Raise e => Q (Raise e) h'
            end) ->
  wp (m ≫= f) h Q.
Proof.
  unfold wp, mbind, M_bind. by destruct (m h) as [[a|e] h'].
Qed.

Lemma wp_alloc df h (Q : outcome loc -> heap -> Prop) :
  (forall l, h !! l = None -> Q (Ok l) (<[l := df]> h)) ->
  wp (alloc df) h Q.
Proof.
  intros H. unfold wp, alloc. simpl. apply H.
  apply not_elem_of_dom, is_fresh.
Qed.

Lemma wp_load l df h (Q : outcome DataFrame -> heap -> Prop) :
  h !! l = Some df -> Q (Ok df) h -> wp (load l) h Q.
Proof. intros Hl HQ. unfold wp, load. by rewrite Hl. Qed.

Lemma wp_store l df h (Q : outcome unit -> heap -> Prop) :
  Q (Ok tt) (<[l := df]> h) -> wp (store l df) h Q.
Proof. done. Qed.

Lemma wp_lift {A : Type} (o : outcome A) h (Q : outcome A -> heap -> Prop) :
  Q o h -> wp (lift o) h Q.
Proof. done. Qed.

(** What a stage does to the store [h] it starts from: every frame of [h]
    is still there, unchanged; the stage raises when [expected] does, and
    otherwise returns what [expected] holds: no frame, or a reference to a
    frame equal to the expected one that satisfies [place]. *)
Definition stage_spec {A : Type} (m : M A) (h : heap)
    (ref : A -> option loc) (expected : outcome (option DataFrame))
    (place : loc -> Prop) : Prop :=
  wp m h (fun o h' =>
    h ⊆ h' /\
    match expected with
    | Raise e => o = Raise e
    | Ok None => exists a, o = Ok a /\ ref a = None
    | Ok (Some df) =>
        exists a r, o = Ok a /\ ref a = Some r /\
                    h' !! r = Some df /\ place r
    end).

Definition some_frame (o : outcome DataFrame) : outcome (option DataFrame) :=
  df ← o; Ok (Some df).

Lemma insert_fresh_subseteq (h0 h : heap) l df :
  h0 ⊆ h -> h !! l = None -> h0 ⊆ <[l := df]> h.
Proof.
  intros Hsub Hl. etrans; [exact Hsub|]. by apply insert_subseteq.
Qed.

Lemma lookup_None_subseteq (h0 h : heap) l :
  h0 ⊆ h -> h !! l = None -> h0 !! l = None.
Proof.
  intros Hsub Hl. destruct (h0 !! l) as [df|] eqn:H0; [|done].
  eapply lookup_weaken in H0; [|exact Hsub]. congruence.
Qed.

(** A frame without a country column. *)
Definition single_frame_store : heap := {[ 0%nat := period_frame ]}.


Ltac wp_step :=
  lazymatch goal with
  | |- wp (mbind _ _) _ _ => apply wp_bind
  | |- wp (mret _) _ _ => apply wp_ret
  | |- wp (lift _) _ _ => apply wp_lift
  | |- wp (store _ _) _ _ => apply wp_store
  | |- wp (load _) _ _ =>
      eapply wp_load; [first [eassumption | by rewrite lookup_insert_eq]|]
  | |- wp (alloc _) _ _ => apply wp_alloc; intros ? ?
  end;
  cbv beta iota.

Lemma not_elem_of_dom_None (h : heap) l : h !! l = None -> l ∉ dom h.
Proof. by intros ?%not_elem_of_dom. Qed.

Lemma DataProcessor_init_spec h table df :
  h !! table = Some df ->
  stage_spec (DataProcessor_init table) h
    (fun self => Some (DataProcessor_data self))
    (Ok (Some df)) (fun r => r ∉ dom h).
Proof.
  intros Ht. unfold stage_spec, DataProcessor_init.
  do 5 wp_step. split; [by apply insert_fresh_subseteq|].
  eexists _, _. split; [done|]. split; [done|].
  split; [by rewrite lookup_insert_eq | by apply not_elem_of_dom_None].
Qed.

Lemma DataProcessor_clean_data_spec h self df :
  h !! DataProcessor_data self = Some df ->
  stage_spec (DataProcessor_clean_data self) h
    (fun a => Some a.2)
    (Ok (Some (clean_data df))) (fun r => r ∉ dom h).
Proof.
  intros Ht. unfold stage_spec, DataProcessor_clean_data.
  do 9 wp_step.
  assert (h !! l0 = None).
  { eapply lookup_None_subseteq; [|done]. by apply insert_fresh_subseteq. }
  split; [by repeat apply insert_fresh_subseteq|].
  eexists _, _. split; [done|]. split; [done|].
  split; [by rewrite lookup_insert_eq | by apply not_elem_of_dom_None].
Qed.

Lemma wp_mono {A : Type} (m : M A) h (Q1 Q2 : outcome A -> heap -> Prop) :
  wp m h Q1 -> (forall o h', Q1 o h' -> Q2 o h') -> wp m h Q2.
Proof. unfold wp. auto. Qed.

Lemma DataProcessor_select_spec h self df mask :
  h !! DataProcessor_data self = Some df ->
  wp (DataProcessor_select mask self) h (fun o h' =>
    match select_rows (mask df) (rows df) with
    | Ok rs =>
        exists l, o = Ok (mkDataProcessor l) /\ h !! l = None /\
                  h' = <[l := mkDataFrame (columns df) rs]> h
    | Raise e => o = Raise e /\ h' = h
    end).
Proof.
  intros Ht. unfold DataProcessor_select. do 4 wp_step.
  destruct (select_rows (mask df) (rows df)) as [rs|e]; [|done].
  do 3 wp_step. eauto.
Qed.

(** One conditional filter of [filter_by_year]: the state of the processor
    after it, against the frame the value-level step computes. *)
Lemma conditional_select_spec h0 h self df (b : bool) mask :
  h0 ⊆ h ->
  h !! DataProcessor_data self = Some df ->
  wp (if b then DataProcessor_select mask self else mret self) h
    (fun o h' =>
       h0 ⊆ h' /\
       match (if b then rs ← select_rows (mask df) (rows df);
                        Ok (mkDataFrame (columns df) rs)
              else Ok df) with
       | Ok df' =>
           exists self', o = Ok self' /\
             h' !! DataProcessor_data self' = Some df' /\
             (h !! DataProcessor_data self' = None \/ self' = self)
       | Raise e => o = Raise e
       end).
Proof.
  intros Hsub Ht. destruct b.
  - eapply wp_mono; [by apply DataProcessor_select_spec|].
    intros o h'. cbv beta.
    destruct (select_rows (mask df) (rows df)) as [rs|e]; simpl.
    + intros (l & -> & Hl & ->). split; [by apply insert_fresh_subseteq|].
      eexists. split; [done|]. simpl.
      split; [by rewrite lookup_insert_eq | by left].
    + by intros [-> ->].
  - wp_step. split; [done|]. eauto.
Qed.

Lemma DataProcessor_filter_by_year_spec h self df start_year end_year :
  h !! DataProcessor_data self = Some df ->
  stage_spec (DataProcessor_filter_by_year start_year end_year self) h
    (fun a => Some a.2)
    (some_frame (filter_by_year start_year end_year df))
    (fun r => r ∉ dom h \/ r = DataProcessor_data self).
Proof.
  intros Ht. unfold stage_spec, DataProcessor_filter_by_year, filter_by_year.
  do 2 wp_step. destruct (find_year_column df) as [year_col|].
  2: { wp_step. split; [done|]. eexists _, _. by repeat split; [..|right]. }
  wp_step.
  eapply wp_mono;
    [by apply (conditional_select_spec h h self df (truthy start_year))|].
  intros o1 h1 [Hsub1 Hstep1]. cbv beta in *.
  destruct (if truthy start_year then _ else _) as [df1|e1];
    [|subst; simpl; by split].
  destruct Hstep1 as (self1 & -> & Hdf1 & Hfresh1). rewrite bind_Ok.
  wp_step.
  eapply wp_mono;
    [by apply (conditional_select_spec h h1 self1 df1 (truthy end_year))|].
  intros o2 h2 [Hsub2 Hstep2]. cbv beta in *.
  destruct (if truthy end_year then _ else _) as [df2|e2];
    [|subst; simpl; by split].
  destruct Hstep2 as (self2 & -> & Hdf2 & Hfresh2). rewrite !bind_Ok.
  wp_step. split; [done|]. simpl.
  eexists _, _. split; [done|]. split; [done|]. split; [done|].
  destruct Hfresh2 as [Hnew| ->].
  - left. apply not_elem_of_dom_None. by apply (lookup_None_subseteq h h1).
  - destruct Hfresh1 as [Hnew| ->]; [|by right].
    left. by apply not_elem_of_dom_None.
Qed.

Lemma DataProcessor_filter_european_countries_spec h self df :
  h !! DataProcessor_data self = Some df ->
  stage_spec (DataProcessor_filter_european_countries self) h
    (fun a => Some a.2)
    (Ok (Some (filter_european_countries df)))
    (fun r => r ∉ dom h \/ r = DataProcessor_data self).
Proof.
  intros Ht.
  unfold stage_spec, DataProcessor_filter_european_countries,
    filter_european_countries, filter_countries_in.
  repeat wp_step.
  destruct (first_present filter_country_candidates df) as [country_col|].
  - repeat wp_step. split; [by apply insert_fresh_subseteq|].
    eexists _, _. split; [done|]. split; [done|]. simpl.
    split; [by rewrite lookup_insert_eq|].
    left. by apply not_elem_of_dom_None.
  - wp_step. split; [done|]. eexists _, _. by repeat split; [..|right].
Qed.

Lemma DataProcessor_aggregate_by_country_spec h self df :
  h !! DataProcessor_data self = Some df ->
  stage_spec (DataProcessor_aggregate_by_country self) h
    (fun a => Some a.2)
    (some_frame (aggregate_by_country df))
    (fun r => r ∉ dom h \/ r = DataProcessor_data self).
Proof.
  intros Ht.
  unfold stage_spec, DataProcessor_aggregate_by_country, aggregate_by_country.
  repeat wp_step.
  assert (Hsame : wp (mret (self, DataProcessor_data self)) h
            (fun o h' => h ⊆ h' /\
               exists (a : DataProcessor * loc) (r : loc),
                 o = Ok a /\ Some a.2 = Some r /\ h' !! r = Some df /\
                 (r ∉ dom h \/ r = DataProcessor_data self))).
  { wp_step. split; [done|]. eexists _, _. by repeat split; [..|right]. }
  destruct (_get_country_column df) as [country_col|]; [|exact Hsame].
  destruct (_get_value_column df) as [value_col|]; [|exact Hsame].
  repeat wp_step.
  destruct (traverse _ (group_keys (column df country_col))) as [agg_rows|e];
    [|by split].
  repeat wp_step. rewrite insert_insert_eq.
  split; [by apply insert_fresh_subseteq|].
  eexists _, _. split; [done|]. split; [done|]. simpl.
  split; [by rewrite lookup_insert_eq|].
  left. by apply not_elem_of_dom_None.
Qed.

Lemma fresh_ne (h : heap) l table df :
  h !! l = None -> h !! table = Some df -> l <> table.
Proof. intros Hl Ht ->. congruence. Qed.

Lemma DataAnalyzer_find_top_countries_spec quicksort n h self df :
  h !! DataAnalyzer_data self = Some df ->
  stage_spec (DataAnalyzer_find_top_countries quicksort n self) h
    (fun a => a)
    (find_top_countries quicksort n df)
    (fun r => r ∉ dom h).
Proof.
  intros Ht.
  unfold stage_spec, DataAnalyzer_find_top_countries, find_top_countries,
    DataProcessor_init.
  repeat wp_step. simpl DataProcessor_data.
  destruct (_get_country_column df) as [country_col|];
    [|wp_step; split; [by apply insert_fresh_subseteq | by eexists]].
  destruct (_get_value_column df) as [value_col|];
    [|wp_step; split; [by apply insert_fresh_subseteq | by eexists]].
  wp_step. eapply wp_load.
  { rewrite lookup_insert_ne; [exact Ht | by eapply fresh_ne]. }
  repeat wp_step.
  destruct (nlargest quicksort n value_col df) as [largest|e];
    [|split; [by apply insert_fresh_subseteq | done]].
  repeat wp_step. rewrite bind_Ok.
  assert (h !! l1 = None).
  { apply (lookup_None_subseteq h (<[l0:=largest]> (<[l:=df]> h))); [|done].
    by repeat apply insert_fresh_subseteq. }
  assert (h !! l0 = None).
  { apply (lookup_None_subseteq h (<[l:=df]> h)); [|done].
    by apply insert_fresh_subseteq. }
  split; [by repeat apply insert_fresh_subseteq|].
  eexists _, _. split; [done|]. split; [done|].
  split; [by rewrite lookup_insert_eq | by apply not_elem_of_dom_None].
Qed.

Lemma DataAnalyzer_calculate_growth_rate_spec h self df :
  h !! DataAnalyzer_data self = Some df ->
  stage_spec (DataAnalyzer_calculate_growth_rate self) h
    (fun r => Some r)
    (some_frame (calculate_growth_rate df))
    (fun r =>
       match _get_country_column df, _get_value_column df,
             find_year_column df with
       | Some _, Some _, Some _ => r ∉ dom h
       | _, _, _ => r = DataAnalyzer_data self
       end).
Proof.
  intros Ht.
  unfold stage_spec, DataAnalyzer_calculate_growth_rate,
    calculate_growth_rate, DataProcessor_init.
  repeat wp_step. simpl DataProcessor_data.
  eapply wp_load.
  { rewrite lookup_insert_ne; [exact Ht | by eapply fresh_ne]. }
  cbv beta iota.
  assert (Hsame : wp (mret (DataAnalyzer_data self)) (<[l:=df]> h)
            (fun o h' => h ⊆ h' /\
               exists (a r : loc),
                 o = Ok a /\ Some a = Some r /\ h' !! r = Some df /\
                 r = DataAnalyzer_data self)).
  { wp_step. split; [by apply insert_fresh_subseteq|].
    eexists _, _. repeat split.
    rewrite lookup_insert_ne; [exact Ht | by eapply fresh_ne]. }
  destruct (_get_country_column df) as [country_col|]; [|exact Hsame].
  destruct (_get_value_column df) as [value_col|]; [|exact Hsame].
  destruct (find_year_column df) as [year_col|]; [|exact Hsame].
  clear Hsame. repeat wp_step.
  destruct (sort_values [country_col; year_col] df) as [sorted|e];
    [|split; [by apply insert_fresh_subseteq | done]].
  repeat wp_step. rewrite bind_Ok.
  destruct (traverse as_float (column sorted value_col)) as [values|e];
    [|split; [by repeat apply insert_fresh_subseteq | done]].
  repeat wp_step. rewrite bind_Ok, insert_insert_eq.
  assert (h !! l0 = None).
  { apply (lookup_None_subseteq h (<[l:=df]> h)); [|done].
    by apply insert_fresh_subseteq. }
  split; [by repeat apply insert_fresh_subseteq|].
  eexists _, _. split; [done|]. split; [done|].
  split; [by rewrite lookup_insert_eq | by apply not_elem_of_dom_None].
Qed.



(** * Further properties of the pipeline *)

(** ** Column resolution *)

(** A resolver's answer: the first candidate, in the order written, that
    names a column, or nothing when no candidate does. *)
Definition first_candidate (candidates : list string) (data : DataFrame)
    (answer : option string) : Prop :=
  match answer with
  | Some col =>
      exists before after,
        candidates = before ++ col :: after /\
        col ∈ columns data /\
        Forall (fun c => c ∉ columns data) before
  | None => Forall (fun c => c ∉ columns data) candidates
  end.

(** X1: the three column resolvers return the first of their candidates, in
    the order written, that names a column of the frame, and [None] exactly
    when none of them does. *)
Theorem column_resolution_first_present (data : DataFrame) :
  first_candidate country_candidates data (_get_country_column data) /\
  first_candidate value_candidates data (_get_value_column data) /\
  first_candidate year_candidates data (find_year_column data).
Proof.
  assert (H : forall candidates,
            first_candidate candidates data (first_present candidates data)).
  { intros candidates. unfold first_candidate.
    destruct (first_present candidates data) as [col|] eqn:Hc.
    - by apply first_present_Some.
    - by apply first_present_None. }
  repeat split; apply H.
Qed.

(** ** Cleaning *)

Lemma drop_duplicate_rows_elem_of seen l r :
  r ∈ drop_duplicate_rows seen l <-> r ∈ l /\ r ∉ seen.
Proof.
  split; [apply drop_duplicate_rows_spec|].
  revert seen. induction l as [|x l IH]; intros seen [Hr Hs]; simpl.
  - inversion Hr.
  - case_bool_decide as Hx.
    + apply IH. split; [|done].
      apply elem_of_cons in Hr as [->|Hr]; done.
    + destruct (decide (r = x)) as [->|Hne]; [by left|]. right.
      apply IH. apply elem_of_cons in Hr as [->|Hr]; [done|].
      split; [done|]. by apply not_elem_of_cons.
Qed.

Lemma drop_duplicate_rows_sublist seen l :
  drop_duplicate_rows seen l `sublist_of` l.
Proof.
  revert seen. induction l as [|x l IH]; intros seen; simpl; [done|].
  case_bool_decide; [by apply sublist_cons | by apply sublist_skip].
Qed.

(** X2: [clean_data] keeps the header and returns, in their original order and
    once each, exactly the rows of the frame that hold no missing value. *)
Theorem clean_data_keeps_complete_rows (data : DataFrame) :
  columns (clean_data data) = columns data /\
  NoDup (rows (clean_data data)) /\
  rows (clean_data data) `sublist_of` rows data /\
  forall r, r ∈ rows (clean_data data) <-> r ∈ rows data /\ has_na r = false.
Proof.
  split; [done|]. split; [apply clean_data_rows|]. split.
  - unfold clean_data, dropna, drop_duplicates; simpl.
    etrans; [apply sublist_filter | apply drop_duplicate_rows_sublist].
  - intros r. unfold clean_data, dropna, drop_duplicates; simpl.
    rewrite list_elem_of_filter, drop_duplicate_rows_elem_of.
    split; [intros (? & ? & _); done|].
    intros [? ?]. repeat split; [done..|]. apply not_elem_of_nil.
Qed.

(** ** The filters *)

Lemma truthy_nonzero (z : option Z) :
  z <> Some 0%Z -> truthy z = bool_decide (is_Some z).
Proof.
  destruct z as [z|]; [|done]. intros Hz.
  rewrite bool_decide_true by eauto. simpl.
  destruct (Z.eqb_spec z 0); [by subst | done].
Qed.

Lemma clean_data_elem_of data r :
  r ∈ rows (clean_data data) -> r ∈ rows data.
Proof.
  unfold clean_data, dropna, drop_duplicates. simpl.
  intros [_ Hr]%list_elem_of_filter.
  by apply drop_duplicate_rows_spec in Hr as [? _].
Qed.

(** X3: with a numeric year column and bounds that are absent or not zero,
    [filter_by_year] keeps, in order, exactly the rows whose year lies
    between the bounds given, both ends included; a row whose year is
    missing is dropped as soon as one bound is given. *)
Theorem filter_by_year_inclusive_bounds
    (data : DataFrame) (year_col : string) (start_year end_year : option Z) :
  find_year_column data = Some year_col ->
  year_column_numeric data = true ->
  start_year <> Some 0%Z ->
  end_year <> Some 0%Z ->
  exists out,
    filter_by_year start_year end_year data = Ok out /\
    columns out = columns data /\
    rows out `sublist_of` rows data /\
    forall r,
      r ∈ rows out <->
      r ∈ rows data /\
      (forall lo, start_year = Some lo ->
         exists x, get (columns data) year_col r = Num x /\
                   fle (Fin (Qc_of_Z lo)) x = true) /\
      (forall hi, end_year = Some hi ->
         exists x, get (columns data) year_col r = Num x /\
                   fle x (Fin (Qc_of_Z hi)) = true).
Proof.
  intros Hy Hnum Hs He.
  pose proof (year_column_numeric_rows _ _ Hy Hnum) as Hrows.
  eexists. split; [by apply filter_by_year_numeric|].
  split; [done|]. split; [apply sublist_filter|].
  intros r. simpl. rewrite list_elem_of_filter.
  unfold year_kept. rewrite (truthy_nonzero _ Hs), (truthy_nonzero _ He).
  split.
  - intros [Hkept Hr]. split; [done|].
    apply andb_true_iff in Hkept as [Hlo Hhi]. specialize (Hrows r Hr).
    destruct (get (columns data) year_col r) as [x|s] eqn:Hcell; [|done].
    split.
    + intros lo ->. rewrite bool_decide_true in Hlo by eauto. eauto.
    + intros hi ->. rewrite bool_decide_true in Hhi by eauto. eauto.
  - intros (Hr & Hlo & Hhi). split; [|done]. apply andb_true_iff. split.
    + destruct start_year as [lo|].
      * rewrite bool_decide_true by eauto.
        destruct (Hlo lo eq_refl) as (x & -> & ?). done.
      * rewrite bool_decide_false; [done|]. by intros [? ?].
    + destruct end_year as [hi|].
      * rewrite bool_decide_true by eauto.
        destruct (Hhi hi eq_refl) as (x & -> & ?). done.
      * rewrite bool_decide_false; [done|]. by intros [? ?].
Qed.

Lemma filter_by_year_inclusive_bounds_witness :
  year_column_numeric spec_example = true /\
  exists out,
    filter_by_year (Some 2001%Z) (Some 2001%Z) spec_example = Ok out /\
    out = mkDataFrame ["country"; "year"; "value"]
            [ [Str "Germany"; int 2001; int 110] ].
Proof.
  split; [reflexivity|].
  destruct (filter_by_year_inclusive_bounds spec_example "year"
              (Some 2001%Z) (Some 2001%Z) eq_refl eq_refl)
    as (out & Hout & _); [done..|].
  exists out. split; [exact Hout|].
  assert (Hval : filter_by_year (Some 2001%Z) (Some 2001%Z) spec_example
            = Ok (mkDataFrame ["country"; "year"; "value"]
                    [ [Str "Germany"; int 2001; int 110] ]))
    by reflexivity.
  rewrite Hout in Hval. by injection Hval.
Defined.

Lemma select_rows_Raise (p : row -> outcome bool) l r :
  r ∈ l -> p r = Raise TypeError ->
  (forall r' e, p r' = Raise e -> e = TypeError) ->
  select_rows p l = Raise TypeError.
Proof.
  intros Hr Hp Hall. induction l as [|x l IH]; [inversion Hr|].
  simpl. destruct (p x) as [b|e] eqn:Hx.
  - rewrite bind_Ok. apply elem_of_cons in Hr as [->|Hr]; [congruence|].
    by rewrite IH.
  - simpl. f_equal. by eapply Hall.
Qed.

(** X4: a string in the year column cannot be compared with a bound: as soon
    as one bound is applied (given and not zero), [filter_by_year] raises
    [TypeError]. *)
Theorem filter_by_year_string_year_raises
    (data : DataFrame) (year_col : string) (start_year end_year : option Z)
    (r : row) :
  find_year_column data = Some year_col ->
  r ∈ rows data ->
  is_str (get (columns data) year_col r) = true ->
  truthy start_year || truthy end_year = true ->
  filter_by_year start_year end_year data = Raise TypeError.
Proof.
  intros Hy Hr Hstr Hb. unfold filter_by_year. rewrite Hy.
  assert (Hge : forall b, select_rows
            (fun r => cell_ge b (get (columns data) year_col r)) (rows data)
            = Raise TypeError).
  { intros b. apply (select_rows_Raise _ _ r); [done| |].
    - by destruct (get (columns data) year_col r).
    - intros r' e. by destruct (get (columns data) year_col r'); intros [=]. }
  assert (Hle : forall b, select_rows
            (fun r => cell_le b (get (columns data) year_col r)) (rows data)
            = Raise TypeError).
  { intros b. apply (select_rows_Raise _ _ r); [done| |].
    - by destruct (get (columns data) year_col r).
    - intros r' e. by destruct (get (columns data) year_col r'); intros [=]. }
  destruct (truthy start_year); [by rewrite Hge|].
  destruct (truthy end_year); [|done]. rewrite bind_Ok. by rewrite Hle.
Qed.

Lemma filter_by_year_string_year_raises_witness :
  filter_by_year (Some 2000%Z) None
    (mkDataFrame ["year"] [ [int 1999]; [Str "n/a"] ]) = Raise TypeError.
Proof.
  apply (filter_by_year_string_year_raises _ "year" _ _ [Str "n/a"]);
    [reflexivity | | reflexivity | reflexivity].
  right. left.
Defined.

(** X5: [filter_european_countries] keeps the header and, when one of its four
    column names is present, exactly the rows whose country is one of the
    thirty listed names, in order; otherwise it returns the frame as it is.
    Filtering twice is filtering once. *)
Theorem filter_european_countries_keeps_listed (data : DataFrame) :
  columns (filter_european_countries data) = columns data /\
  rows (filter_european_countries data) `sublist_of` rows data /\
  (forall country_col,
     first_present filter_country_candidates data = Some country_col ->
     forall r,
       r ∈ rows (filter_european_countries data) <->
       r ∈ rows data /\
       exists name, get (columns data) country_col r = Str name /\
                    name ∈ european_countries) /\
  (first_present filter_country_candidates data = None ->
   filter_european_countries data = data) /\
  filter_european_countries (filter_european_countries data)
    = filter_european_countries data.
Proof.
  unfold filter_european_countries, filter_countries_in.
  destruct (first_present filter_country_candidates data) as [cc|] eqn:Hcc.
  - split; [done|]. split; [apply sublist_filter|]. split; [|split; [done|]].
    + intros ? [= <-] r. simpl. rewrite list_elem_of_filter. split.
      * intros [Hin Hr]. split; [done|].
        destruct (get (columns data) cc r) as [x|name]; [done|].
        exists name. split; [done|]. by apply bool_decide_eq_true in Hin.
      * intros (Hr & name & Hcell & Hname). split; [|done].
        rewrite Hcell. by apply bool_decide_eq_true.
    + rewrite (first_present_columns _ (mkDataFrame (columns data) _) data)
        by done.
      rewrite Hcc. simpl. f_equal. apply filter_idemp.
  - rewrite Hcc. by repeat split.
Qed.

Lemma drop_duplicate_rows_filter (P : row -> Prop)
    `{!forall r, Decision (P r)} seen seen' l :
  (forall r, P r -> r ∈ seen <-> r ∈ seen') ->
  filter P (drop_duplicate_rows seen l)
  = drop_duplicate_rows seen' (filter P l).
Proof.
  revert seen seen'. induction l as [|x l IH]; intros seen seen' Hs; [done|].
  rewrite (filter_cons P x l). simpl. destruct (decide (P x)) as [Hx|Hx].
  - simpl. pose proof (Hs x Hx) as Hxs.
    case_bool_decide as H1; case_bool_decide as H2; try tauto.
    + by apply IH.
    + rewrite filter_cons, decide_True by done. f_equal. apply IH.
      intros r Hr. rewrite !elem_of_cons. specialize (Hs r Hr). tauto.
  - case_bool_decide as H1; [by apply IH|].
    rewrite filter_cons, decide_False by done. apply IH.
    intros r Hr. rewrite elem_of_cons. specialize (Hs r Hr).
    split; [|tauto]. intros [->|?]; [done | tauto].
Qed.



(** ** Aggregation: further facts *)

Lemma traverse_Ok_inv {A B : Type} (f : A -> outcome B) (l : list A) bs :
  traverse f l = Ok bs -> Forall2 (fun a b => f a = Ok b) l bs.
Proof.
  revert bs. induction l as [|a l IH]; intros bs; simpl.
  - intros [= <-]. constructor.
  - destruct (f a) as [b|e] eqn:Ha; [|done]. rewrite bind_Ok.
    destruct (traverse f l) as [bs'|e]; [|done]. rewrite bind_Ok.
    intros [= <-]. constructor; [done | by apply IH].
Qed.

Lemma group_keys_elem_of keys k :
  k ∈ group_keys keys <-> k ∈ keys /\ isna k = false.
Proof.
  unfold group_keys.
  rewrite sort_by_perm, elem_of_remove_dups, list_elem_of_filter. tauto.
Qed.

Lemma group_keys_NoDup keys : NoDup (group_keys keys).
Proof.
  unfold group_keys. rewrite sort_by_perm. apply NoDup_remove_dups.
Qed.

Lemma group_keys_sorted keys :
  StronglySorted (fun a b => cell_leb a b = true) (group_keys keys).
Proof.
  apply sort_by_sorted. split; [apply cell_leb_total | apply cell_leb_trans].
Qed.

Lemma agg_row_key cols cc vc l k rec :
  agg_row cols cc vc l k = Ok rec -> cell_at 0 rec = k.
Proof.
  unfold agg_row. destruct (numbers _) as [xs|e]; [|done].
  rewrite bind_Ok. by intros [= <-].
Qed.

(** The keys of the aggregate rows are the group keys, in order. *)
Lemma aggregate_by_country_keys data cc vc out :
  _get_country_column data = Some cc ->
  _get_value_column data = Some vc ->
  aggregate_by_country data = Ok out ->
  Forall2 (fun k rec => agg_row (columns data) cc vc (rows data) k = Ok rec)
    (group_keys (column data cc)) (rows out) /\
  map (cell_at 0) (rows out) = group_keys (column data cc).
Proof.
  intros Hcc Hvc. unfold aggregate_by_country. rewrite Hcc, Hvc.
  destruct (traverse _ (group_keys (column data cc))) as [recs|e] eqn:Ht;
    [|done].
  rewrite bind_Ok. intros [= <-]. simpl.
  apply traverse_Ok_inv in Ht. split; [done|].
  induction Ht as [|k rec ks recs Hk _ IH]; [done|].
  simpl. by rewrite (agg_row_key _ _ _ _ _ _ Hk), IH.
Qed.

(** X7: when [aggregate_by_country] returns with its two columns resolved, its
    rows come in ascending order of country, one per country, for exactly
    the countries of the frame that are not missing; there are never more
    rows than in the input. *)
Theorem aggregate_by_country_sorted_countries
    (data out : DataFrame) (cc vc : string) :
  _get_country_column data = Some cc ->
  _get_value_column data = Some vc ->
  aggregate_by_country data = Ok out ->
  StronglySorted (fun a b => cell_leb a b = true)
    (map (cell_at 0) (rows out)) /\
  NoDup (map (cell_at 0) (rows out)) /\
  (forall k, k ∈ map (cell_at 0) (rows out) <->
             k ∈ column data cc /\ isna k = false) /\
  (length (rows out) <= length (rows data))%nat.
Proof.
  intros Hcc Hvc Hout.
  destruct (aggregate_by_country_keys _ _ _ _ Hcc Hvc Hout) as [_ Hkeys].
  rewrite Hkeys.
  split; [apply group_keys_sorted|]. split; [apply group_keys_NoDup|].
  split; [apply group_keys_elem_of|].
  rewrite <- (length_map (cell_at 0) (rows out)), Hkeys.
  pose proof (first_present_elem_of _ _ _ Hcc) as Hcin.
  rewrite <- (length_map (get (columns data) cc) (rows data)).
  rewrite <- column_get by done.
  apply submseteq_length, NoDup_submseteq; [apply group_keys_NoDup|].
  intros k Hk. by apply group_keys_elem_of in Hk as [? _].
Qed.

Lemma aggregate_by_country_sorted_countries_witness :
  map (cell_at 0) (rows spec_example_aggregate)
    = [Str "France"; Str "Germany"] /\
  StronglySorted (fun a b => cell_leb a b = true)
    (map (cell_at 0) (rows spec_example_aggregate)).
Proof.
  split; [reflexivity|].
  assert (Hagg : aggregate_by_country spec_example = Ok spec_example_aggregate)
    by by_evaluation.
  exact (proj1 (aggregate_by_country_sorted_countries spec_example
                  spec_example_aggregate "country" "value"
                  eq_refl eq_refl Hagg)).
Defined.

Lemma numbers_all_missing cs :
  Forall (fun c => c = Num NaN) cs -> numbers cs = Ok [].
Proof. induction 1 as [|c cs -> _ IH]; [done|]. simpl. exact IH. Qed.

(** X8: a country that has rows but no value at all (every value missing) still
    gets its aggregate row: mean, minimum and maximum are NaN and the total
    is 0. *)
Theorem aggregate_by_country_all_missing
    (data out : DataFrame) (cc vc : string) (k : cell) :
  _get_country_column data = Some cc ->
  _get_value_column data = Some vc ->
  aggregate_by_country data = Ok out ->
  k ∈ column data cc -> isna k = false ->
  Forall (fun c => c = Num NaN)
    (group_values (columns data) cc vc k (rows data)) ->
  [k; Num NaN; Num NaN; Num NaN; Num (Fin 0)] ∈ rows out.
Proof.
  intros Hcc Hvc Hout Hk Hna Hmissing.
  destruct (aggregate_by_country_keys _ _ _ _ Hcc Hvc Hout) as [Hrows _].
  assert (Hkey : k ∈ group_keys (column data cc))
    by by apply group_keys_elem_of.
  apply list_elem_of_lookup in Hkey as [i Hi].
  destruct (Forall2_lookup_l _ _ _ _ _ Hrows Hi) as (rec & Hrec & Hagg).
  unfold agg_row in Hagg. rewrite (numbers_all_missing _ Hmissing) in Hagg.
  rewrite bind_Ok in Hagg. injection Hagg as <-.
  apply list_elem_of_lookup. eauto.
Qed.

(** A frame in which Malta has a row but no value. *)
Definition missing_value_example : DataFrame :=
  mkDataFrame ["country"; "value"]
    [ [Str "Malta"; Num NaN]; [Str "Spain"; int 7] ].

Definition missing_value_aggregate : DataFrame :=
  mkDataFrame ["Country"; "Average"; "Minimum"; "Maximum"; "Total"]
    [ [Str "Malta"; Num NaN; Num NaN; Num NaN; Num (Fin 0)];
      [Str "Spain"; int 7; int 7; int 7; int 7] ].

Lemma aggregate_by_country_all_missing_witness :
  aggregate_by_country missing_value_example = Ok missing_value_aggregate /\
  [Str "Malta"; Num NaN; Num NaN; Num NaN; Num (Fin 0)] ∈
    rows missing_value_aggregate.
Proof.
  assert (Hagg : aggregate_by_country missing_value_example
                 = Ok missing_value_aggregate) by by_evaluation.
  split; [exact Hagg|].
  apply (aggregate_by_country_all_missing missing_value_example
           missing_value_aggregate "country" "value" (Str "Malta")
           eq_refl eq_refl Hagg).
  - apply list_elem_of_here.
  - reflexivity.
  - repeat constructor.
Defined.

Lemma Qc_of_Z_succ (n : nat) :
  Qc_of_Z (Z.of_nat (S n)) = Qc_of_Z (Z.of_nat n) + 1.
Proof.
  unfold Qc_of_Z. apply Qc_is_canon. simpl. rewrite !Qred_correct.
  rewrite Nat2Z.inj_succ. unfold Z.succ. by rewrite inject_Z_plus.
Qed.

Lemma Qc_of_Z_pos (z : Z) : (0 < z)%Z -> 0 < Qc_of_Z z.
Proof.
  intros Hz. unfold Qc_of_Z, Qclt. simpl. rewrite !Qred_correct.
  change 0%Q with (inject_Z 0). by rewrite <- Zlt_Qlt.
Qed.

Lemma Qc_sum_lower (a : Qc) (qs : list Qc) :
  Forall (fun q => a <= q) qs ->
  Qc_of_Z (Z.of_nat (length qs)) * a <= Qc_sum qs.
Proof.
  induction 1 as [|q qs Hq _ IH].
  - simpl. rewrite Qcmult_0_l. apply Qcle_refl.
  - cbn [length Qc_sum foldr]. rewrite Qc_of_Z_succ.
    replace ((Qc_of_Z (Z.of_nat (length qs)) + 1) * a)
      with (a + Qc_of_Z (Z.of_nat (length qs)) * a) by ring.
    by apply Qcplus_le_compat.
Qed.

Lemma Qc_sum_upper (a : Qc) (qs : list Qc) :
  Forall (fun q => q <= a) qs ->
  Qc_sum qs <= Qc_of_Z (Z.of_nat (length qs)) * a.
Proof.
  induction 1 as [|q qs Hq _ IH].
  - simpl. rewrite Qcmult_0_l. apply Qcle_refl.
  - cbn [length Qc_sum foldr]. rewrite Qc_of_Z_succ.
    replace ((Qc_of_Z (Z.of_nat (length qs)) + 1) * a)
      with (a + Qc_of_Z (Z.of_nat (length qs)) * a) by ring.
    by apply Qcplus_le_compat.
Qed.

(** The statistics of a group of finite values that is not empty. *)
Lemma group_stats_finite (qs : list Qc) :
  qs <> [] ->
  exists mean mn mx,
    fmean (map Fin qs) = Fin mean /\
    fmin (map Fin qs) = Fin mn /\
    fmax (map Fin qs) = Fin mx /\
    mn <= mean /\ mean <= mx.
Proof.
  intros Hne. destruct (fmean_finite qs Hne) as (mean & Hmean & Hsum).
  destruct qs as [|q qs']; [done|].
  destruct (fmin_finite q qs') as (mn & Hmn & _ & Hmnall).
  destruct (fmax_finite q qs') as (mx & Hmx & _ & Hmxall).
  exists mean, mn, mx. split; [done|]. split; [exact Hmn|].
  split; [exact Hmx|].
  assert (Hpos : 0 < Qc_of_Z (Z.of_nat (length (q :: qs'))))
    by (apply Qc_of_Z_pos; simpl; lia).
  apply Qc_sum_lower in Hmnall. apply Qc_sum_upper in Hmxall.
  rewrite <- Hsum in Hmnall, Hmxall.
  split.
  - by apply (Qcmult_le_mono_pos_l _ _ _ Hpos).
  - by apply (Qcmult_le_mono_pos_l _ _ _ Hpos).
Qed.

(** The finite values of the rows with a given key, when every value of
    the frame is finite and the key occurs. *)
Lemma group_finite_values cols cc vc (l : list row) k :
  forallb is_finite (map (get cols vc) l) = true ->
  k ∈ map (get cols cc) l ->
  exists qs, qs <> [] /\
    group_values cols cc vc k l = map (fun q => Num (Fin q)) qs.
Proof.
  intros Hfin Hk.
  exists (finite_values (group_values cols cc vc k l)). split.
  - apply list_elem_of_fmap in Hk as (r & -> & Hr). intros Hnil.
    pose proof (finite_values_cells _
                  (group_values_finite cols cc vc (get cols cc r) l Hfin))
      as Hcells.
    rewrite Hnil in Hcells. simpl in Hcells.
    assert (Hin : get cols vc r ∈ group_values cols cc vc (get cols cc r) l).
    { unfold group_values. apply list_elem_of_fmap. exists r.
      split; [done|]. by apply list_elem_of_filter. }
    rewrite Hcells in Hin. inversion Hin.
  - by apply finite_values_cells, group_values_finite.
Qed.



(** ** Ranking: further facts *)



(** ** Growth rates: further facts *)

Lemma set_column_columns col values df :
  columns (set_column col values df)
  = if bool_decide (col ∈ columns df) then columns df
    else columns df ++ [col].
Proof.
  unfold set_column.
  destruct (col_index col (columns df)) as [i|] eqn:Hi; simpl.
  - rewrite bool_decide_true; [done|].
    apply col_index_Some in Hi. by eapply list_elem_of_lookup_2.
  - rewrite bool_decide_false; [done|]. by apply col_index_None.
Qed.

(** X11: with its three columns resolved (and sortable), the growth-rate
    computation keeps every row and returns the header with [growth_rate]
    appended, or unchanged when the frame already had a [growth_rate]
    column, which is then overwritten. Without one of the three columns it
    returns the frame as it is. *)
Theorem calculate_growth_rate_header (data : DataFrame) :
  (forall cc vc yc,
     _get_country_column data = Some cc ->
     _get_value_column data = Some vc ->
     find_year_column data = Some yc ->
     growth_columns_typed data cc vc yc = true ->
     exists out,
       calculate_growth_rate data = Ok out /\
       length (rows out) = length (rows data) /\
       columns out
       = if bool_decide ("growth_rate" ∈ columns data) then columns data
         else columns data ++ ["growth_rate"]) /\
  (_get_country_column data = None \/ _get_value_column data = None \/
   find_year_column data = None ->
   calculate_growth_rate data = Ok data).
Proof.
  split.
  - intros cc vc yc Hcc Hvc Hyc Hty. eexists.
    split; [by apply calculate_growth_rate_resolved|]. split.
    + rewrite set_column_length; simpl.
      * unfold sorted_rows. by rewrite sort_by_perm.
      * by rewrite length_map, growth_values_length.
    + by rewrite set_column_columns.
  - unfold calculate_growth_rate.
    intros [->|[->| ->]]; [done| |].
    + by destruct (_get_country_column data).
    + by destruct (_get_country_column data), (_get_value_column data).
Qed.

Lemma candidate_not_growth_rate candidates data col :
  first_present candidates data = Some col ->
  "growth_rate" ∉ candidates ->
  col <> "growth_rate".
Proof.
  intros H Hni ->. apply Hni.
  apply first_present_Some in H as (before & after & -> & _).
  apply elem_of_app. right. by left.
Qed.

(** X12: a row whose country is missing belongs to no group: its growth rate is
    NaN (null), whatever rows surround it. *)
Theorem calculate_growth_rate_missing_country
    (data : DataFrame) (cc vc yc : string) :
  _get_country_column data = Some cc ->
  _get_value_column data = Some vc ->
  find_year_column data = Some yc ->
  growth_columns_typed data cc vc yc = true ->
  exists out,
    calculate_growth_rate data = Ok out /\
    forall r', r' ∈ rows out ->
      isna (get (columns out) cc r') = true ->
      get (columns out) "growth_rate" r' = Num NaN.
Proof.
  intros Hcc Hvc Hyc Hty. eexists.
  split; [by apply calculate_growth_rate_resolved|].
  intros r' Hr' Hna. apply list_elem_of_lookup in Hr' as [i Hi].
  assert (Hsorted : StronglySorted
            (fun r1 r2 => lex_leb (columns data) [cc; yc] r1 r2 = true)
            (sorted_rows data cc yc))
    by apply sort_by_sorted, lex_leb_total_preorder.
  apply set_column_lookup in Hi as (r & g & Hr & Hg & Hget & Hother).
  simpl in Hr, Hother.
  rewrite Hother in Hna; [|by eapply first_present_elem_of|]; last first.
  { eapply candidate_not_growth_rate; [exact Hcc|].
    unfold country_candidates. intros Hin.
    repeat (apply elem_of_cons in Hin as [[=]|Hin]). inversion Hin. }
  rewrite Hget. rewrite list_lookup_fmap in Hg.
  rewrite (growth_values_lookup _ _ yc _ _ _ _ Hsorted Hr) in Hg.
  simpl in Hg. injection Hg as <-.
  destruct i as [|j]; [done|]. rewrite Hna.
  destruct (sorted_rows data cc yc !! j); [|done].
  by rewrite andb_false_r.
Qed.

(** A frame with a row whose country is missing. *)
Definition missing_country_example : DataFrame :=
  mkDataFrame ["country"; "year"; "population"]
    [ [Num NaN; int 2000; int 10];
      [Num NaN; int 2001; int 20];
      [Str "Spain"; int 2000; int 40] ].

Lemma calculate_growth_rate_missing_country_witness :
  growth_columns_typed missing_country_example
    "country" "population" "year" = true /\
  exists out,
    calculate_growth_rate missing_country_example = Ok out /\
    out = mkDataFrame ["country"; "year"; "population"; "growth_rate"]
            [ [Str "Spain"; int 2000; int 40; Num NaN];
              [Num NaN; int 2000; int 10; Num NaN];
              [Num NaN; int 2001; int 20; Num NaN] ].
Proof.
  split; [reflexivity|].
  destruct (calculate_growth_rate_missing_country missing_country_example
              "country" "population" "year"
              eq_refl eq_refl eq_refl eq_refl) as (out & Hout & _).
  exists out. split; [exact Hout|].
  assert (Hval : calculate_growth_rate missing_country_example
            = Ok (mkDataFrame ["country"; "year"; "population"; "growth_rate"]
                    [ [Str "Spain"; int 2000; int 40; Num NaN];
                      [Num NaN; int 2000; int 10; Num NaN];
                      [Num NaN; int 2001; int 20; Num NaN] ]))
    by by_evaluation.
  rewrite Hout in Hval. by injection Hval.
Defined.

Lemma calculate_growth_rate_header_witness :
  growth_columns_typed growth_example "country" "population" "year" = true /\
  exists out,
    calculate_growth_rate growth_example = Ok out /\
    columns out = ["country"; "year"; "population"; "growth_rate"].
Proof.
  split; [reflexivity|].
  destruct (proj1 (calculate_growth_rate_header growth_example)
              "country" "population" "year"
              eq_refl eq_refl eq_refl eq_refl)
    as (out & Hout & _ & Hcols).
  exists out. split; [exact Hout | exact Hcols].
Defined.

(** ** The processing steps of [main] *)

Lemma isin_Str values c :
  isin values c = true <-> exists name, c = Str name /\ name ∈ values.
Proof.
  destruct c as [x|name]; simpl.
  - split; [done | by intros (? & ? & _)].
  - rewrite bool_decide_eq_true. split; [eauto|]. by intros (? & [= <-] & ?).
Qed.

Lemma main_country_step_elem_of (data : DataFrame) r :
  r ∈ rows (if has_column data "Country Name" then
              mkDataFrame (columns data)
                (filter
                   (fun r => isin main_european_countries
                               (get (columns data) "Country Name" r) = true)
                   (rows data))
            else data) <->
  r ∈ rows data /\
  ("Country Name" ∈ columns data ->
   exists name, get (columns data) "Country Name" r = Str name /\
                name ∈ main_european_countries).
Proof.
  unfold has_column. case_bool_decide as Hc; simpl.
  - rewrite list_elem_of_filter, isin_Str. split; [intros [? ?]|]; tauto.
  - tauto.
Qed.

(** X13: on a frame whose year column is numeric, the processing steps of [main]
    return the header unchanged and, once each and in their original order,
    exactly the rows that hold no missing value, whose year (when there is a
    year column) is 2000 or later, and whose [Country Name] (when there is
    such a column) is one of the thirty names listed in [main]. *)
Theorem main_processed_data_rows (raw_data : DataFrame) :
  year_column_numeric raw_data = true ->
  exists out,
    main_processed_data raw_data = Ok out /\
    columns out = columns raw_data /\
    NoDup (rows out) /\
    rows out `sublist_of` rows raw_data /\
    forall r,
      r ∈ rows out <->
      r ∈ rows raw_data /\ has_na r = false /\
      (forall year_col, find_year_column raw_data = Some year_col ->
         exists x, get (columns raw_data) year_col r = Num x /\
                   fle (Fin (Qc_of_Z 2000)) x = true) /\
      ("Country Name" ∈ columns raw_data ->
       exists name, get (columns raw_data) "Country Name" r = Str name /\
                    name ∈ main_european_countries).
Proof.
  intros Hnum. unfold main_processed_data.
  assert (Hclean : forall r, r ∈ rows (clean_data raw_data) <->
                             r ∈ rows raw_data /\ has_na r = false).
  { intros r. unfold clean_data, dropna, drop_duplicates; simpl.
    rewrite list_elem_of_filter, drop_duplicate_rows_elem_of.
    split; [intros (? & ? & _); done|].
    intros [? ?]. repeat split; [done..|]. apply not_elem_of_nil. }
  assert (Hsub : rows (clean_data raw_data) `sublist_of` rows raw_data).
  { unfold clean_data, dropna, drop_duplicates; simpl.
    etrans; [apply sublist_filter | apply drop_duplicate_rows_sublist]. }
  pose proof (proj1 (clean_data_rows raw_data)) as Hnd.
  destruct (find_year_column raw_data) as [yc|] eqn:Hy.
  - pose proof (year_column_numeric_rows _ _ Hy Hnum) as Hrows.
    rewrite (filter_by_year_numeric _ _ _ yc); first last.
    { intros r Hr. apply Hrows. by apply Hclean in Hr as [? _]. }
    { unfold find_year_column in *. rewrite <- Hy.
      by apply first_present_columns. }
    rewrite bind_Ok. eexists. split; [reflexivity|].
    set (filtered := mkDataFrame _ _).
    assert (Hf : forall r, r ∈ rows filtered <->
              r ∈ rows raw_data /\ has_na r = false /\
              exists x, get (columns raw_data) yc r = Num x /\
                        fle (Fin (Qc_of_Z 2000)) x = true).
    { intros r. unfold filtered. simpl.
      rewrite list_elem_of_filter, Hclean. unfold year_kept. simpl.
      rewrite andb_true_r.
      destruct (get (columns raw_data) yc r) as [x|s] eqn:Hcell; simpl.
      - split; [intros (? & ? & ?); eauto 6|].
        by intros (? & ? & x' & [= <-] & ?).
      - split; [by intros (? & _)|]. by intros (_ & _ & x' & ? & _). }
    assert (Hndf : NoDup (rows filtered))
      by (unfold filtered; cbn [rows]; by apply NoDup_filter).
    assert (Hsubf : rows filtered `sublist_of` rows raw_data)
      by (unfold filtered; cbn [rows];
          etrans; [apply sublist_filter | done]).
    split; [by unfold has_column; destruct (bool_decide _)|].
    split.
    { unfold has_column. destruct (bool_decide _); cbn [rows];
        [by apply NoDup_filter | done]. }
    split.
    { unfold has_column. destruct (bool_decide _); cbn [rows]; [|done].
      etrans; [apply sublist_filter | done]. }
    intros r. rewrite main_country_step_elem_of, Hf. simpl. split.
    + intros ((? & ? & Hyear) & ?). repeat split; [done..| |done].
      by intros ? [= <-].
    + intros (? & ? & Hyear & ?). repeat split; [done..| |done].
      by apply Hyear.
  - unfold filter_by_year.
    assert (Hy' : find_year_column (clean_data raw_data) = None).
    { unfold find_year_column in *. rewrite <- Hy.
      by apply first_present_columns. }
    rewrite Hy', bind_Ok. eexists. split; [reflexivity|].
    split; [by unfold has_column; destruct (bool_decide _)|].
    split.
    { unfold has_column. destruct (bool_decide _); cbn [rows];
        [by apply NoDup_filter | done]. }
    split.
    { unfold has_column. destruct (bool_decide _); cbn [rows]; [|done].
      etrans; [apply sublist_filter | done]. }
    intros r. rewrite main_country_step_elem_of, Hclean. simpl. split.
    + intros ((? & ?) & ?). by repeat split.
    + intros (? & ? & _ & ?). by repeat split.
Qed.

(** A small frame in the shape of the data set [main] loads. *)
Definition population_csv : DataFrame :=
  mkDataFrame ["Country Name"; "Country Code"; "Year"; "Value"]
    [ [Str "France"; Str "FRA"; int 1999; int 60];
      [Str "France"; Str "FRA"; int 2000; int 61];
      [Str "Japan"; Str "JPN"; int 2000; int 126];
      [Str "France"; Str "FRA"; int 2000; int 61];
      [Str "Italy"; Str "ITA"; int 2001; Num NaN];
      [Str "Czechia"; Str "CZE"; int 2001; int 10];
      [Str "Spain"; Str "ESP"; int 2001; int 41] ].

Lemma main_processed_data_rows_witness :
  year_column_numeric population_csv = true /\
  exists out,
    main_processed_data population_csv = Ok out /\
    out = mkDataFrame ["Country Name"; "Country Code"; "Year"; "Value"]
            [ [Str "France"; Str "FRA"; int 2000; int 61];
              [Str "Spain"; Str "ESP"; int 2001; int 41] ].
Proof.
  split; [reflexivity|].
  destruct (main_processed_data_rows population_csv eq_refl)
    as (out & Hout & _).
  exists out. split; [exact Hout|].
  assert (Hval : main_processed_data population_csv
            = Ok (mkDataFrame ["Country Name"; "Country Code"; "Year"; "Value"]
                    [ [Str "France"; Str "FRA"; int 2000; int 61];
                      [Str "Spain"; Str "ESP"; int 2001; int 41] ]))
    by reflexivity.
  rewrite Hout in Hval. by injection Hval.
Defined.

(** ** The comparison chart *)

Lemma StronglySorted_weaken {A : Type} (R1 R2 : A -> A -> Prop) (l : list A) :
  (forall a b, R1 a b -> R2 a b) ->
  StronglySorted R1 l -> StronglySorted R2 l.
Proof.
  intros HR. induction 1 as [|a l Hl IH Ha]; constructor; [done|].
  eapply Forall_impl; [exact Ha|]. apply HR.
Qed.

Lemma traverse_Forall2 {A B : Type} (f : A -> outcome B)
    (R : A -> B -> Prop) (l : list A) :
  (forall a, a ∈ l -> exists b, f a = Ok b /\ R a b) ->
  exists bs, traverse f l = Ok bs /\ Forall2 R l bs.
Proof.
  induction l as [|a l IH]; intros Hf.
  - exists []. by split; [|constructor].
  - destruct (Hf a) as (b & Hb & HR); [by left|].
    destruct IH as (bs & Hbs & Hall); [intros a' Ha'; apply Hf; by right|].
    exists (b :: bs). cbn [traverse]. rewrite Hb, bind_Ok, Hbs, bind_Ok.
    split; [done | by constructor].
Qed.

(** A bar group of the comparison chart: a country with its mean, minimum
    and maximum, the mean between the two. *)
Definition comparison_row (k : cell) (rec : row) : Prop :=
  exists mean mn mx,
    rec = [k; Num (Fin mean); Num (Fin mn); Num (Fin mx)] /\
    mn <= mean /\ mean <= mx.



(** ** The trend chart *)

Lemma mixed_subset (cs cs' : list cell) :
  (forall c, c ∈ cs' -> c ∈ cs) -> mixed cs = false -> mixed cs' = false.
Proof.
  intros Hsub Hm. unfold mixed in *.
  destruct (existsb is_str cs') eqn:Hs; [|done].
  destruct (existsb is_number cs') eqn:Hn; [|done].
  apply existsb_true_elem_of in Hs as (c1 & Hc1 & Hs).
  apply existsb_true_elem_of in Hn as (c2 & Hc2 & Hn).
  assert (H1 : existsb is_str cs = true)
    by (apply existsb_true_elem_of; eauto).
  assert (H2 : existsb is_number cs = true)
    by (apply existsb_true_elem_of; eauto).
  by rewrite H1, H2 in Hm.
Qed.

(** The rows of one country, as the trend chart selects them. *)
Definition country_rows (data : DataFrame) (country_col : string)
    (country : cell) : list row :=
  filter (fun r => cell_eqb (get (columns data) country_col r) country = true)
    (rows data).

(** A line of the trend chart: the rows of its country, all of them, at
    least one, in ascending order of year. *)
Definition trend_line (data : DataFrame) (country_col year_col : string)
    (line : cell * DataFrame) : Prop :=
  columns line.2 = columns data /\
  rows line.2 ≡ₚ country_rows data country_col line.1 /\
  rows line.2 <> [] /\
  StronglySorted
    (fun a b => cell_leb (get (columns data) year_col a)
                  (get (columns data) year_col b) = true)
    (rows line.2).

Lemma trend_lines_spec
    (quicksort : (row -> row -> bool) -> list row -> list row)
    (data : DataFrame) (cc yc : string) (countries : list cell) :
  sorts quicksort ->
  yc ∈ columns data ->
  mixed (column data yc) = false ->
  exists lines,
    trend_lines quicksort data cc yc countries = Ok lines /\
    map fst lines
    = filter (fun c => country_rows data cc c <> []) countries /\
    Forall (trend_line data cc yc) lines.
Proof.
  intros [Hperm Hsorted] Hyin Hmixed.
  induction countries as [|c cs (lines & Hlines & Hlabels & Hall)].
  - exists []. by repeat split.
  - cbn [trend_lines]. fold (country_rows data cc c).
    unfold sort_values_by.
    rewrite (mixed_subset (column data yc)); [|
      | exact Hmixed]; last first.
    { intros cell. rewrite !column_get by done. simpl.
      intros (r & -> & Hr)%list_elem_of_fmap.
      apply list_elem_of_fmap. exists r. split; [done|].
      by apply list_elem_of_filter in Hr as [_ ?]. }
    rewrite bind_Ok, Hlines, bind_Ok. cbn [rows columns].
    set (sorted := quicksort (lex_leb (columns data) [yc])
                     (country_rows data cc c)).
    assert (Hlen : length sorted = length (country_rows data cc c))
      by (unfold sorted; by rewrite Hperm).
    rewrite filter_cons.
    destruct (country_rows data cc c) as [|r0 rs] eqn:Hrows.
    + destruct sorted; [|done]. simpl. eauto.
    + destruct sorted as [|s0 ss] eqn:Hs; [done|]. simpl.
      eexists. split; [reflexivity|]. simpl. split; [by rewrite Hlabels|].
      constructor; [|done]. split; [done|]. simpl.
      split; [rewrite Hrows, <- Hs; apply Hperm|]. split; [done|].
      rewrite <- Hs. unfold sorted.
      eapply StronglySorted_weaken;
        [|apply Hsorted, lex_leb_total_preorder].
      intros a b. apply lex_leb_first.
Qed.

(** X15: with the three columns resolved and a year column that can be sorted,
    the trend chart called with a list of countries draws one line for each
    listed country that has rows, in the order of the list, and none for the
    others; a line holds all the rows of its country, in ascending order of
    year. *)
Theorem plot_trend_over_time_lines
    (quicksort : (row -> row -> bool) -> list row -> list row)
    (data : DataFrame) (cc vc yc : string) (countries : list cell) :
  sorts quicksort ->
  _get_country_column data = Some cc ->
  _get_value_column data = Some vc ->
  find_year_column data = Some yc ->
  mixed (column data yc) = false ->
  exists lines,
    plot_trend_over_time quicksort (Some countries) data = Ok (Some lines) /\
    map fst lines
    = filter (fun c => country_rows data cc c <> []) countries /\
    Forall (trend_line data cc yc) lines.
Proof.
  intros Hsorts Hcc Hvc Hyc Hmixed.
  pose proof (first_present_elem_of _ _ _ Hyc) as Hyin.
  destruct (trend_lines_spec quicksort data cc yc countries Hsorts Hyin Hmixed)
    as (lines & Hlines & Hlabels & Hall).
  exists lines. split; [|done].
  unfold plot_trend_over_time. by rewrite Hcc, Hvc, Hyc, bind_Ok, Hlines.
Qed.

Lemma plot_trend_over_time_lines_witness :
  mixed (column spec_example "year") = false /\
  exists lines,
    plot_trend_over_time sort_by
      (Some [Str "Germany"; Str "Norway"; Str "France"]) spec_example
      = Ok (Some lines) /\
    map fst lines = [Str "Germany"; Str "France"].
Proof.
  split; [reflexivity|].
  destruct (plot_trend_over_time_lines sort_by spec_example
              "country" "value" "year"
              [Str "Germany"; Str "Norway"; Str "France"]
              sort_by_sorts eq_refl eq_refl eq_refl eq_refl)
    as (lines & Hlines & Hlabels & _).
  exists lines. split; [exact Hlines|]. rewrite Hlabels. reflexivity.
Defined.

(** The mean value of a country, as [groupby(country)[value].mean()] gives
    it when the values are finite numbers. *)
Definition country_mean (data : DataFrame) (country_col value_col : string)
    (country : cell) : float :=
  fmean (map Fin (finite_values
                    (group_values (columns data) country_col value_col
                       country (rows data)))).

Lemma filter_all {A : Type} (P : A -> Prop) `{!forall a, Decision (P a)}
    (l : list A) :
  Forall P l -> filter P l = l.
Proof.
  induction 1 as [|a l Ha _ IH]; [done|].
  by rewrite filter_cons, decide_True, IH.
Qed.

Lemma country_rows_nonempty data cc k :
  cc ∈ columns data -> k ∈ column data cc -> isna k = false ->
  country_rows data cc k <> [].
Proof.
  intros Hcin Hk Hna Hnil. rewrite column_get in Hk by done.
  apply list_elem_of_fmap in Hk as (r & -> & Hr).
  assert (Hin : r ∈ country_rows data cc (get (columns data) cc r)).
  { apply list_elem_of_filter. split; [|done].
    unfold cell_eqb. rewrite Hna. simpl. by apply bool_decide_eq_true. }
  rewrite Hnil in Hin. inversion Hin.
Qed.

(** X16: with the three columns resolved, a year column that can be sorted and
    finite values, the trend chart called without a list of countries draws
    [min(5, countries)] lines, one per country and no country twice, each
    holding all the rows of its country in ascending order of year; no
    country left out has a greater mean value than a country drawn. *)
Theorem plot_trend_over_time_top_five
    (quicksort : (row -> row -> bool) -> list row -> list row)
    (data : DataFrame) (cc vc yc : string) :
  sorts quicksort ->
  _get_country_column data = Some cc ->
  _get_value_column data = Some vc ->
  find_year_column data = Some yc ->
  mixed (column data yc) = false ->
  forallb is_finite (column data vc) = true ->
  exists lines,
    plot_trend_over_time quicksort None data = Ok (Some lines) /\
    length lines = Nat.min 5 (length (group_keys (column data cc))) /\
    NoDup (map fst lines) /\
    Forall (trend_line data cc yc) lines /\
    forall drawn other,
      drawn ∈ map fst lines ->
      other ∈ column data cc -> isna other = false ->
      other ∉ map fst lines ->
      cell_geb (Num (country_mean data cc vc drawn))
        (Num (country_mean data cc vc other)) = true.
Proof.
  intros Hsorts Hcc Hvc Hyc Hmixed Hfin.
  pose proof (first_present_elem_of _ _ _ Hcc) as Hcin.
  pose proof (first_present_elem_of _ _ _ Hvc) as Hvin.
  pose proof (first_present_elem_of _ _ _ Hyc) as Hyin.
  rewrite column_get in Hfin by done.
  set (keys := group_keys (column data cc)).
  set (g := fun k => [k; Num (country_mean data cc vc k)]).
  assert (Hmeans : traverse (mean_row (columns data) cc vc (rows data)) keys
                   = Ok (map g keys)).
  { apply traverse_Ok. intros k _. unfold mean_row, g, country_mean.
    rewrite (finite_values_cells
               (group_values (columns data) cc vc k (rows data)))
      at 1 by (by apply group_values_finite).
    by rewrite numbers_finite, bind_Ok. }
  assert (Hne : cc <> "mean").
  { intros ->. apply first_present_Some in Hcc as (before & after & Hc & _).
    assert (Hin : "mean" ∈ country_candidates)
      by (rewrite Hc; apply elem_of_app; right; by left).
    unfold country_candidates in Hin.
    repeat (apply elem_of_cons in Hin as [[=]|Hin]). inversion Hin. }
  set (means := mkDataFrame [cc; "mean"] (map g keys)).
  assert (Hget : forall r, get (columns means) "mean" r = cell_at 1 r).
  { intros r. unfold get. simpl. by rewrite bool_decide_false by done. }
  assert (Hstr : existsb is_str (column means "mean") = false).
  { rewrite column_get by (simpl; set_solver).
    apply existsb_false_elem_of. intros c Hc.
    apply list_elem_of_fmap in Hc as (rec & -> & Hrec). rewrite Hget.
    simpl in Hrec. by apply list_elem_of_fmap in Hrec as (k & -> & _). }
  destruct (nlargest_ranked quicksort 5 "mean" means Hsorts Hstr)
    as (ranked & Hperm & Hsorted & Hn).
  simpl in Hperm.
  set (countries := map (cell_at 0) (take 5 ranked)).
  assert (Hranked_keys : map (cell_at 0) ranked ≡ₚ keys).
  { rewrite Hperm, map_map. simpl. by rewrite map_id. }
  assert (Hsubl : countries `sublist_of` map (cell_at 0) ranked)
    by apply (fmap_sublist (cell_at 0)), sublist_take.
  assert (Hcountries : forall k, k ∈ countries -> k ∈ keys).
  { intros k Hk. rewrite <- Hranked_keys. by eapply elem_of_sublist. }
  destruct (trend_lines_spec quicksort data cc yc countries Hsorts Hyin Hmixed)
    as (lines & Hlines & Hlabels & Hall).
  rewrite filter_all in Hlabels; last first.
  { apply Forall_forall. intros k Hk. apply Hcountries in Hk.
    apply group_keys_elem_of in Hk as [? ?].
    by apply country_rows_nonempty. }
  exists lines. split.
  { unfold plot_trend_over_time. rewrite Hcc, Hvc, Hyc.
    fold keys. rewrite Hmeans, bind_Ok. fold means.
    rewrite Hn, !bind_Ok. cbn [rows]. change (Z.to_nat 5) with 5%nat.
    fold countries. by rewrite Hlines. }
  split.
  { rewrite <- (length_map fst lines), Hlabels. unfold countries.
    rewrite length_map, length_take, Hperm, length_map. done. }
  split.
  { rewrite Hlabels. eapply sublist_NoDup; [|exact Hsubl].
    rewrite Hranked_keys. apply group_keys_NoDup. }
  split; [done|].
  intros drawn other Hdrawn Hother Hna Hout. rewrite Hlabels in Hdrawn, Hout.
  assert (Hrow : forall rec, rec ∈ ranked -> rec = g (cell_at 0 rec)).
  { intros rec Hrec. rewrite Hperm in Hrec.
    by apply list_elem_of_fmap in Hrec as (k & -> & _). }
  apply list_elem_of_fmap in Hdrawn as (a & -> & Ha).
  assert (Hb : g other ∈ drop 5 ranked).
  { assert (Hin : g other ∈ ranked).
    { rewrite Hperm. apply list_elem_of_fmap. exists other. split; [done|].
      by apply group_keys_elem_of. }
    rewrite <- (take_drop 5 ranked) in Hin.
    apply elem_of_app in Hin as [Hin|Hin]; [|done].
    exfalso. apply Hout. apply list_elem_of_fmap. by exists (g other). }
  rewrite <- (take_drop 5 ranked) in Hsorted.
  pose proof (StronglySorted_app_1_elem_of _ _ _ _ _ Hsorted Ha Hb) as Hge.
  unfold desc_leb in Hge. rewrite !Hget in Hge.
  rewrite (Hrow a) in Hge by (by eapply elem_of_sublist, sublist_take).
  exact Hge.
Qed.

Lemma plot_trend_over_time_top_five_witness :
  mixed (column spec_example "year") = false /\
  forallb is_finite (column spec_example "value") = true /\
  exists lines,
    plot_trend_over_time sort_by None spec_example = Ok (Some lines) /\
    length lines = 2%nat.
Proof.
  split; [reflexivity|]. split; [reflexivity|].
  destruct (plot_trend_over_time_top_five sort_by spec_example
              "country" "value" "year"
              sort_by_sorts eq_refl eq_refl eq_refl eq_refl eq_refl)
    as (lines & Hlines & Hlen & _).
  exists lines. split; [exact Hlines|]. rewrite Hlen. reflexivity.
Defined.
